(** * wimms/sql.py: the metadata database (SQLMetadata)

    A shallow embedding of [SQLMetadata]: the three tables the class reads
    and writes ([user_nodes], [nodes], [metadata]), the SQL statements it
    sends, the wrapper [_safe_execute] around the engine, and the methods
    built on them.  Methods are computations in a state-and-exception monad
    over the database and the availability of the storage engine.
    [get_patterns], which only lists a fourth table, is left out.

    Where the outcome of a statement is the engine's own (the quotient of
    two integer columns, the range of the integers it stores), it is that of
    SQLite, the engine [__init__] serves with [wimms.sqliteschemas]. *)

From Stdlib Require Import List String ZArith Bool Lia.
Import ListNotations.

Open Scope string_scope.
Open Scope Z_scope.

(** ** Rows and tables *)

(** A row of [user_nodes]: the columns named by [_GET] and [_INSERT]. *)
Record user_node := mk_user_node {
  un_uid : Z;
  un_service : string;
  un_email : string;
  un_node : string;
  un_tos_signed : Z
}.

(** A row of [nodes]: the key columns used by [get_best_node] and the
    columns of [WRITEABLE_FIELDS]. *)
Record node_row := mk_node {
  n_service : string;
  n_node : string;
  n_available : Z;
  n_current_load : Z;
  n_capacity : Z;
  n_downed : Z;
  n_backoff : Z
}.

(** A row of [metadata]: the columns of [_INSERT_METADATA]. *)
Record metadata_row := mk_metadata {
  md_service : string;
  md_name : string;
  md_value : string
}.

(** The database behind [self._engine].  [next_uid] is the auto-increment
    counter that produces [lastrowid] for a row inserted in [user_nodes]. *)
Record db := mk_db {
  user_nodes : list user_node;
  nodes : list node_row;
  metadata : list metadata_row;
  next_uid : Z
}.

(** ** Exceptions *)

Inductive exn :=
| BackendError (msg : string)
| OperationalError (msg : string)
| TimeoutError (msg : string)
| IntegrityError (msg : string)
| OverflowError (msg : string).

(** [str(exc)] *)
Definition str (e : exn) : string :=
  match e with
  | BackendError m | OperationalError m | TimeoutError m | IntegrityError m
  | OverflowError m => m
  end.

(** The Python class of a raised exception, message forgotten. *)
Inductive exn_type :=
  BackendErrorT | OperationalErrorT | TimeoutErrorT | IntegrityErrorT | OverflowErrorT.

Definition type_of (e : exn) : exn_type :=
  match e with
  | BackendError _ => BackendErrorT
  | OperationalError _ => OperationalErrorT
  | TimeoutError _ => TimeoutErrorT
  | IntegrityError _ => IntegrityErrorT
  | OverflowError _ => OverflowErrorT
  end.

Inductive result (A : Type) :=
| Ok (a : A)
| Raise (e : exn).
Arguments Ok {A} a.
Arguments Raise {A} e.

(** ** The storage engine *)

(** What the engine hands back from [execute]: the rows of a select and
    the [lastrowid] of an insert. *)
Record ResultProxy (R : Type) := mk_result {
  rows : list R;
  lastrowid : Z
}.
Arguments mk_result {R} rows lastrowid.
Arguments rows {R} r.
Arguments lastrowid {R} r.

Definition fetchone {R} (res : ResultProxy R) : option R := hd_error (rows res).
Definition fetchall {R} (res : ResultProxy R) : list R := rows res.

(** A statement, as the engine runs it on the tables. *)
Definition statement (R : Type) := db -> result (ResultProxy R) * db.

(** Connectivity failures of the engine, which do not depend on the tables. *)
Inductive fault :=
| ConnectionLost (msg : string)
| PoolExhausted (msg : string).

Definition exn_of_fault (f : fault) : exn :=
  match f with
  | ConnectionLost m => OperationalError m
  | PoolExhausted m => TimeoutError m
  end.

(** The engine and its database.  [faults] schedules what happens to the
    coming calls of [engine.execute]: [Some f] makes the call fail with [f]
    before it touches the tables, [None] lets it through; once the schedule
    is used up every call goes through. *)
Record world := mk_world {
  tables : db;
  faults : list (option fault)
}.

Definition online (d : db) : world := mk_world d [].

(** ** The monad of the methods *)

Definition M (A : Type) := world -> result A * world.

Definition ret {A} (a : A) : M A := fun w => (Ok a, w).

Definition raise {A} (e : exn) : M A := fun w => (Raise e, w).

Definition bind {A B} (m : M A) (k : A -> M B) : M B :=
  fun w =>
    match m w with
    | (Ok a, w') => k a w'
    | (Raise e, w') => (Raise e, w')
    end.

Notation "x <- m ;; k" := (bind m (fun x => k))
  (at level 61, m at next level, right associativity).
Notation "m ;;; k" := (bind m (fun _ => k))
  (at level 61, right associativity).

(** [engine.execute(statement)] *)
Definition engine_execute {R} (q : statement R) : M (ResultProxy R) :=
  fun w =>
    match faults w with
    | [] => let (r, d) := q (tables w) in (r, mk_world d [])
    | None :: rest => let (r, d) := q (tables w) in (r, mk_world d rest)
    | Some f :: rest => (Raise (exn_of_fault f), mk_world (tables w) rest)
    end.

(** [_safe_execute]: every engine resolves to [self._engine]; the two
    caught classes are re-raised as [BackendError(str(exc))], anything else
    propagates. *)
Definition _safe_execute {R} (q : statement R) : M (ResultProxy R) :=
  fun w =>
    match engine_execute q w with
    | (Raise (OperationalError m), w') =>
        (Raise (BackendError (str (OperationalError m))), w')
    | (Raise (TimeoutError m), w') =>
        (Raise (BackendError (str (TimeoutError m))), w')
    | other => other
    end.

(** ** The statements *)

Definition set_user_nodes (l : list user_node) (d : db) : db :=
  mk_db l (nodes d) (metadata d) (next_uid d).
Definition set_nodes (l : list node_row) (d : db) : db :=
  mk_db (user_nodes d) l (metadata d) (next_uid d).
Definition set_metadata_rows (l : list metadata_row) (d : db) : db :=
  mk_db (user_nodes d) (nodes d) l (next_uid d).

Definition selected {R} (l : list R) (d : db) : result (ResultProxy R) * db :=
  (Ok (mk_result l 0), d).

(** [where email = :email and service = :service] *)
Definition where_user (email service : string) (r : user_node) : bool :=
  (un_email r =? email)%string && (un_service r =? service)%string.

(** [_GET] *)
Definition _GET (email service : string) : statement user_node :=
  fun d => selected (filter (where_user email service) (user_nodes d)) d.

(** [_INSERT].
    Modelled from the spec: the schema of [user_nodes], which is declared
    in wimms/schemas.py and not in this module, gives [uid] by
    auto-increment and keeps [(email, service)] unique; a violation is the
    engine's [IntegrityError]. *)
Definition _INSERT (service email node : string) (tos_signed : Z)
  : statement user_node :=
  fun d =>
    if existsb (where_user email service) (user_nodes d)
    then (Raise (IntegrityError "(IntegrityError) duplicate entry in user_nodes"), d)
    else
      let uid := next_uid d in
      let row := mk_user_node uid service email node tos_signed in
      (Ok (mk_result [] uid),
       mk_db (user_nodes d ++ [row]) (nodes d) (metadata d) (uid + 1)).

(** [where name = :name and service = :service] *)
Definition where_metadata (service name : string) (r : metadata_row) : bool :=
  (md_name r =? name)%string && (md_service r =? service)%string.

(** [_INSERT_METADATA].
    Modelled from the spec: the schema of [metadata], which is declared in
    wimms/schemas.py and not in this module, keeps [(service, name)]
    unique; a violation is the engine's [IntegrityError]. *)
Definition _INSERT_METADATA (service name value : string)
  : statement metadata_row :=
  fun d =>
    if existsb (where_metadata service name) (metadata d)
    then (Raise (IntegrityError "(IntegrityError) duplicate entry in metadata"), d)
    else
      (Ok (mk_result [] 0),
       set_metadata_rows (metadata d ++ [mk_metadata service name value]) d).

(** [_UPDATE_METADATA] *)
Definition _UPDATE_METADATA (service name value : string)
  : statement metadata_row :=
  fun d =>
    (Ok (mk_result [] 0),
     set_metadata_rows
       (map (fun r => if where_metadata service name r
                      then mk_metadata (md_service r) (md_name r) value
                      else r)
            (metadata d)) d).

(** The select of [get_metadata]: [service == service], and
    [name == name] when a name is given. *)
Definition select_metadata (service : string) (name : option string)
  : statement metadata_row :=
  fun d =>
    selected
      (filter (fun r =>
                 (md_service r =? service)%string &&
                 match name with
                 | Some n => (md_name r =? n)%string
                 | None => true
                 end)
              (metadata d)) d.

(** The [where] list of the select in [get_best_node]. *)
Definition where_best (service : string) (r : node_row) : bool :=
  (n_service r =? service)%string &&
  (n_available r >? 0) &&
  (n_capacity r >? n_current_load r) &&
  (n_downed r =? 0).

(** The sort key [current_load / capacity].  The quotient is computed by
    the engine, on two integer columns: SQLite divides integers as integers,
    so the key is the quotient truncated toward zero, and NULL ([None]) for
    a zero capacity; NULL sorts before every number in ascending order. *)
Definition ratio (r : node_row) : option Z :=
  if n_capacity r =? 0 then None
  else Some (Z.quot (n_current_load r) (n_capacity r)).

Definition ratio_leb (a b : node_row) : bool :=
  match ratio a, ratio b with
  | None, _ => true
  | Some _, None => false
  | Some x, Some y => x <=? y
  end.

Fixpoint insert_by (x : node_row) (l : list node_row) : list node_row :=
  match l with
  | [] => [x]
  | y :: l' => if ratio_leb x y then x :: l else y :: insert_by x l'
  end.

(** [order_by(current_load / capacity)]: ascending, rows of equal key in
    storage order. *)
Fixpoint order_by (l : list node_row) : list node_row :=
  match l with
  | [] => []
  | x :: l' => insert_by x (order_by l')
  end.

Definition limit {R} (n : nat) (l : list R) : list R := firstn n l.

(** The select of [get_best_node]. *)
Definition select_best (service : string) : statement node_row :=
  fun d => selected (limit 1 (order_by (filter (where_best service) (nodes d)))) d.

(** [where service == service and node == node] *)
Definition where_node (service node : string) (r : node_row) : bool :=
  (n_service r =? service)%string && (n_node r =? node)%string.

(** [fields = {available: available - 1, current_load: current_load + 1}] *)
Definition claim (r : node_row) : node_row :=
  mk_node (n_service r) (n_node r) (n_available r - 1) (n_current_load r + 1)
          (n_capacity r) (n_downed r) (n_backoff r).

(** The update of [get_best_node]. *)
Definition update_claim (service node : string) : statement node_row :=
  fun d =>
    (Ok (mk_result [] 0),
     set_nodes (map (fun r => if where_node service node r then claim r else r)
                    (nodes d)) d).

(** [where service == service], and [email == email] when an email is
    given. *)
Definition where_tos_flag (service : string) (email : option string)
           (r : user_node) : bool :=
  (un_service r =? service)%string &&
  match email with
  | Some e => (un_email r =? e)%string
  | None => true
  end.

(** The integers the engine stores: 64 bits, signed. *)
Definition sql_integer (v : Z) : bool :=
  (-9223372036854775808 <=? v) && (v <=? 9223372036854775807).

(** The update of [set_tos_flag].  A [value] that is no [sql_integer] is
    refused when the driver binds it, with Python's [OverflowError], and
    nothing is written. *)
Definition update_tos_flag (service : string) (value : Z) (email : option string)
  : statement user_node :=
  fun d =>
    if sql_integer value
    then
      (Ok (mk_result [] 0),
       set_user_nodes
         (map (fun r => if where_tos_flag service email r
                        then mk_user_node (un_uid r) (un_service r) (un_email r)
                                          (un_node r) value
                        else r)
              (user_nodes d)) d)
    else
      (Raise (OverflowError "Python int too large to convert to SQLite INTEGER"),
       d).

(** ** The methods of [SQLMetadata] *)

(** [get_metadata(service, name)] with a name: the value of the first row,
    or [None]. *)
Definition get_metadata (service name : string) : M (option string) :=
  res <- _safe_execute (select_metadata service (Some name)) ;;
  match fetchone res with
  | Some one => ret (Some (md_value one))
  | None => ret None
  end.

(** [get_metadata(service)] with [name=None]: all the rows. *)
Definition get_metadata_all (service : string) : M (list metadata_row) :=
  res <- _safe_execute (select_metadata service None) ;;
  ret (fetchall res).

Definition get_node (email service : string)
  : M (option Z * option string * option string) :=
  res <- _safe_execute (_GET email service) ;;
  let one := fetchone res in
  tos <- match one with
         | None => get_metadata service "terms-of-service"
         | Some r =>
             if un_tos_signed r =? 1
             then get_metadata service "terms-of-service"
             else ret None
         end ;;
  match one with
  | None => ret (None, None, tos)
  | Some r => ret (Some (un_uid r), Some (un_node r), tos)
  end.

(** The first half of [get_best_node]: the select, and the test on
    [fetchone]. *)
Definition get_best_node_select (service : string) : M string :=
  res <- _safe_execute (select_best service) ;;
  match fetchone res with
  | None => raise (BackendError "unable to get a node")
  | Some one => ret (n_node one)
  end.

(** The second half of [get_best_node]: "updating the table". *)
Definition get_best_node_update (service node : string) : M unit :=
  _safe_execute (update_claim service node) ;;;
  ret tt.

Definition get_best_node (service : string) : M string :=
  node <- get_best_node_select service ;;
  get_best_node_update service node ;;;
  ret node.

Definition allocate_node (email service : string) : M (Z * string) :=
  r <- get_node email service ;;
  match r with
  | (None, None, _) =>
      node <- get_best_node service ;;
      res <- _safe_execute (_INSERT service email node 1) ;;
      ret (lastrowid res, node)
  | _ => raise (BackendError "Node already assigned")
  end.

Definition set_metadata (service name value : string) : M unit :=
  _safe_execute (_INSERT_METADATA service name value) ;;;
  ret tt.

Definition update_metadata (service name value : string) : M unit :=
  _safe_execute (_UPDATE_METADATA service name value) ;;;
  ret tt.

Definition set_tos_flag (service : string) (value : Z) (email : option string)
  : M unit :=
  _safe_execute (update_tos_flag service value email) ;;;
  ret tt.

Definition set_tos (service value : string) : M unit :=
  update_metadata service "terms-of-service" value ;;;
  set_tos_flag service 0 None.

(** ** What the reads return *)

(** The value [get_metadata] finds in the tables. *)
Definition stored_metadata (service name : string) (d : db) : option string :=
  option_map md_value
    (hd_error (filter (fun r => (md_service r =? service)%string &&
                                (md_name r =? name)%string) (metadata d))).

(** The row [get_node] finds in the tables. *)
Definition stored_user (email service : string) (d : db) : option user_node :=
  hd_error (filter (where_user email service) (user_nodes d)).

(** The answer of [get_node] on given tables. *)
Definition node_of (email service : string) (d : db)
  : option Z * option string * option string :=
  match stored_user email service d with
  | None => (None, None, stored_metadata service "terms-of-service" d)
  | Some r =>
      (Some (un_uid r), Some (un_node r),
       if un_tos_signed r =? 1
       then stored_metadata service "terms-of-service" d
       else None)
  end.

(** The row the select of [get_best_node] hands to [fetchone]. *)
Definition selected_node (service : string) (d : db) : option node_row :=
  hd_error (limit 1 (order_by (filter (where_best service) (nodes d)))).

(** The tables after a successful [allocate_node] that chose [node]. *)
Definition allocated (email service node : string) (d : db) : db :=
  mk_db (user_nodes d ++ [mk_user_node (next_uid d) service email node 1])
        (map (fun r => if where_node service node r then claim r else r) (nodes d))
        (metadata d)
        (next_uid d + 1).

(** ** Example tables *)

(** Two nodes of the service ["sync"], stored most loaded first, the
    terms-of-service url of the service, and no assignment yet. *)
Definition sync_nodes : list node_row :=
  [mk_node "sync" "https://b.example" 5 8 10 0 0;
   mk_node "sync" "https://a.example" 5 2 10 0 0].

Definition sync_db : db :=
  mk_db [] sync_nodes [mk_metadata "sync" "terms-of-service" "http://tos/1"] 1.

(** A database in which ["u@x"] has a node of ["sync"] and has accepted the
    terms of service (flag 0). *)
Definition signed_db : db :=
  mk_db [mk_user_node 1 "sync" "u@x" "https://a.example" 0]
        [mk_node "sync" "https://b.example" 5 8 10 0 0;
         mk_node "sync" "https://a.example" 4 3 10 0 0]
        [mk_metadata "sync" "terms-of-service" "http://tos/1"] 2.

(** The two nodes of the allocation scenario: load 2 of 10 and load 8 of
    10, both up, at any address and with any number of free slots. *)
Definition node_A (a : string) (available backoff : Z) : node_row :=
  mk_node "sync" a available 2 10 0 backoff.
Definition node_B (b : string) (available backoff : Z) : node_row :=
  mk_node "sync" b available 8 10 0 backoff.

(** A node with a single slot, and the same node once the slot is taken. *)
Definition single_slot : node_row := mk_node "sync" "https://a.example" 1 0 1 0 0.


(** ** Properties of tables and rows *)


(** Modelled from the spec: the schema of [nodes], which is declared in
    wimms/schemas.py and not in this module, identifies a node by
    [(service, node)]: no two rows of the table share both. *)
Definition unique_nodes (l : list node_row) : Prop :=
  NoDup (map (fun r => (n_service r, n_node r)) l).

(** The address of [N] is its own: no other row of the table has both the
    service and the address of [N]. *)
Definition own_address (N : node_row) (l : list node_row) : Prop :=
  forall r, In r l -> n_service r = n_service N -> n_node r = n_node N -> r = N.

(** ** Calls of the class, one after the other *)

(** A call of one of the public methods, with its arguments. *)
Inductive call :=
| Call_get_node (email service : string)
| Call_allocate_node (email service : string)
| Call_get_best_node (service : string)
| Call_set_metadata (service name value : string)
| Call_get_metadata (service name : string)
| Call_get_metadata_all (service : string)
| Call_update_metadata (service name value : string)
| Call_set_tos (service value : string)
| Call_set_tos_flag (service : string) (value : Z) (email : option string).

(** The engine and its database after a call, whether it returned or
    raised. *)
Definition perform (c : call) (w : world) : world :=
  match c with
  | Call_get_node e s => snd (get_node e s w)
  | Call_allocate_node e s => snd (allocate_node e s w)
  | Call_get_best_node s => snd (get_best_node s w)
  | Call_set_metadata s n v => snd (set_metadata s n v w)
  | Call_get_metadata s n => snd (get_metadata s n w)
  | Call_get_metadata_all s => snd (get_metadata_all s w)
  | Call_update_metadata s n v => snd (update_metadata s n v w)
  | Call_set_tos s v => snd (set_tos s v w)
  | Call_set_tos_flag s v e => snd (set_tos_flag s v e w)
  end.

Definition perform_all (cs : list call) (w : world) : world :=
  fold_left (fun w c => perform c w) cs w.

(** ** What a computation keeps *)

(** [m] relates the tables before and after by [T], whatever the
    schedule and whether it returns or raises. *)
Definition keeps {A} (T : db -> db -> Prop) (m : M A) : Prop :=
  forall w r w1, m w = (r, w1) -> T (tables w) (tables w1).

(** The [except] clause of [_safe_execute], on the outcome of the engine. *)
Definition translate {A} (r : result A) : result A :=
  match r with
  | Raise (OperationalError m) => Raise (BackendError m)
  | Raise (TimeoutError m) => Raise (BackendError m)
  | other => other
  end.

(** [get_node] finds the pair assigned to [node] under [uid]. *)
Definition assigned (email service : string) (uid : Z) (node : string) (d : db)
  : Prop :=
  exists tos,
    get_node email service (online d) = (Ok (Some uid, Some node, tos), online d).

(** [get_metadata] finds a value for the key. *)
Definition has_metadata (service name : string) (d : db) : Prop :=
  exists v, get_metadata service name (online d) = (Ok (Some v), online d).

(** A row of [nodes] and what a later state of the table has in its
    place: the same key, capacity, [downed] and [backoff]; the load has not
    gone down, and what it gained, [available] lost. *)
Definition node_step (r r' : node_row) : Prop :=
  n_service r' = n_service r /\ n_node r' = n_node r /\
  n_capacity r' = n_capacity r /\ n_downed r' = n_downed r /\
  n_backoff r' = n_backoff r /\
  n_available r' + n_current_load r' = n_available r + n_current_load r /\
  n_current_load r <= n_current_load r'.

(** No node holds more than its capacity or has a negative number of free
    slots, and no two rows share a key. *)
Definition within_capacity (l : list node_row) : Prop :=
  unique_nodes l /\
  forall r, In r l -> 0 <= n_available r /\ n_current_load r <= n_capacity r.

Definition total_load (l : list node_row) : Z :=
  fold_right (fun r acc => n_current_load r + acc) 0 l.

Definition total_available (l : list node_row) : Z :=
  fold_right (fun r acc => n_available r + acc) 0 l.

(** ** Running a statement through [_safe_execute] *)

Section Engine.
Context {R : Type} (q : statement R).

Lemma engine_execute_online (d : db) :
  engine_execute q (online d) = (fst (q d), online (snd (q d))).
Proof.
  unfold engine_execute, online; simpl. now destruct (q d).
Qed.

(** With the engine reachable, a statement that succeeds is passed on. *)
Lemma safe_execute_online_Ok (d d' : db) (res : ResultProxy R) :
  q d = (Ok res, d') ->
  _safe_execute q (online d) = (Ok res, online d').
Proof.
  intros E. unfold _safe_execute. rewrite engine_execute_online, E. reflexivity.
Qed.

(** ... and a constraint violation is passed on as it is. *)
Lemma safe_execute_online_IntegrityError (d d' : db) (m : string) :
  q d = (Raise (IntegrityError m), d') ->
  _safe_execute q (online d) = (Raise (IntegrityError m), online d').
Proof.
  intros E. unfold _safe_execute. rewrite engine_execute_online, E. reflexivity.
Qed.

(** A scheduled fault is caught and re-raised; the tables are not touched. *)
Lemma safe_execute_fault (w : world) (f : fault) (rest : list (option fault)) :
  faults w = Some f :: rest ->
  _safe_execute q w =
    (Raise (BackendError (str (exn_of_fault f))), mk_world (tables w) rest).
Proof.
  intros E. unfold _safe_execute, engine_execute. rewrite E. now destruct f.
Qed.

(** Whatever the schedule, a call that returns has run the statement. *)
Lemma safe_execute_Ok_inv (w w1 : world) (res : ResultProxy R) :
  _safe_execute q w = (Ok res, w1) ->
  q (tables w) = (Ok res, tables w1) /\ faults w1 = tl (faults w).
Proof.
  unfold _safe_execute, engine_execute.
  destruct (faults w) as [|[f|] rest] eqn:F; simpl.
  - destruct (q (tables w)) as [[a|[]] d]; intros H; inversion H; subst; auto.
  - destruct f; intros H; inversion H.
  - destruct (q (tables w)) as [[a|[]] d]; intros H; inversion H; subst; auto.
Qed.

End Engine.

Lemma bind_Ok_inv {A B} (m : M A) (k : A -> M B) (w w2 : world) (b : B) :
  bind m k w = (Ok b, w2) ->
  exists a w1, m w = (Ok a, w1) /\ k a w1 = (Ok b, w2).
Proof.
  unfold bind. destruct (m w) as [[a|e] w1]; intros H.
  - eauto.
  - discriminate.
Qed.

Lemma online_eta (w : world) : faults w = [] -> w = online (tables w).
Proof. destruct w; simpl; intros ->; reflexivity. Qed.

Lemma get_metadata_online (service name : string) (d : db) :
  get_metadata service name (online d) =
    (Ok (stored_metadata service name d), online d).
Proof.
  unfold get_metadata, bind.
  rewrite (safe_execute_online_Ok (select_metadata service (Some name)) d d _ eq_refl).
  unfold stored_metadata, fetchone; simpl.
  now destruct (hd_error _).
Qed.

Lemma get_metadata_Ok_inv (service name : string) (w w1 : world) v :
  get_metadata service name w = (Ok v, w1) ->
  tables w1 = tables w /\ v = stored_metadata service name (tables w) /\
  faults w1 = tl (faults w).
Proof.
  unfold get_metadata. intros H.
  apply bind_Ok_inv in H as (res & w' & H1 & H2).
  apply safe_execute_Ok_inv in H1 as [H1 F].
  unfold select_metadata, selected in H1.
  injection H1 as <- T.
  unfold stored_metadata, fetchone in *; simpl in *.
  destruct (hd_error _); injection H2 as <- <-; auto.
Qed.

Lemma get_node_online (email service : string) (d : db) :
  get_node email service (online d) = (Ok (node_of email service d), online d).
Proof.
  unfold get_node, bind.
  rewrite (safe_execute_online_Ok (_GET email service) d d _ eq_refl).
  unfold node_of, stored_user, fetchone; simpl.
  destruct (hd_error _) as [r|].
  - destruct (un_tos_signed r =? 1).
    + now rewrite get_metadata_online.
    + reflexivity.
  - now rewrite get_metadata_online.
Qed.

Lemma get_node_Ok_inv (email service : string) (w w1 : world) r :
  get_node email service w = (Ok r, w1) ->
  tables w1 = tables w /\ r = node_of email service (tables w).
Proof.
  unfold get_node. intros H.
  apply bind_Ok_inv in H as (res & w' & H1 & H2).
  apply safe_execute_Ok_inv in H1 as [H1 _].
  unfold _GET, selected in H1.
  injection H1 as <- T.
  apply bind_Ok_inv in H2 as (tos & w'' & H2 & H3).
  unfold node_of, stored_user, fetchone in *; simpl in *.
  destruct (hd_error _) as [u|].
  - injection H3 as <- <-.
    destruct (un_tos_signed u =? 1).
    + apply get_metadata_Ok_inv in H2 as (T' & V & _).
      rewrite T', <- T, V, <- T. auto.
    + injection H2 as <- <-. auto.
  - injection H3 as <- <-.
    apply get_metadata_Ok_inv in H2 as (T' & V & _).
    rewrite T', <- T, V, <- T. auto.
Qed.

(** ** Lists of rows *)

Section Rows.
Context {A : Type} (p : A -> bool).

Lemma filter_none (l : list A) :
  (forall x, In x l -> p x = false) -> filter p l = [].
Proof.
  induction l as [|a l IH]; simpl; intros H; [reflexivity|].
  rewrite (H a (or_introl eq_refl)). apply IH. intros x Hx. apply H. now right.
Qed.

Lemma filter_nil_none (l : list A) :
  filter p l = [] -> forall x, In x l -> p x = false.
Proof.
  induction l as [|a l IH]; simpl; intros H x Hx; [contradiction|].
  destruct (p a) eqn:E; [discriminate|].
  destruct Hx as [<-|Hx]; auto.
Qed.

Lemma existsb_none (l : list A) :
  (forall x, In x l -> p x = false) -> existsb p l = false.
Proof.
  induction l as [|a l IH]; simpl; intros H; [reflexivity|].
  rewrite (H a (or_introl eq_refl)). apply IH. intros x Hx. apply H. now right.
Qed.

Lemma map_if_none (f : A -> A) (l : list A) :
  (forall x, In x l -> p x = false) ->
  map (fun r => if p r then f r else r) l = l.
Proof.
  induction l as [|a l IH]; simpl; intros H; [reflexivity|].
  rewrite (H a (or_introl eq_refl)). f_equal. apply IH.
  intros x Hx. apply H. now right.
Qed.

(** Position by position, an update rewrites the rows its [where]
    selects and keeps the others. *)
Lemma nth_error_map_if (f : A -> A) (l : list A) (i : nat) (r : A) :
  nth_error l i = Some r ->
  nth_error (map (fun r => if p r then f r else r) l) i =
    Some (if p r then f r else r).
Proof.
  intros H. rewrite nth_error_map, H. reflexivity.
Qed.
End Rows.

Lemma set_metadata_rows_same (d : db) : set_metadata_rows (metadata d) d = d.
Proof. now destruct d. Qed.

Lemma where_metadata_absent (service name : string) (l : list metadata_row) :
  (forall r, In r l -> md_service r = service -> md_name r <> name) ->
  forall r, In r l -> where_metadata service name r = false.
Proof.
  intros H r Hr. unfold where_metadata.
  destruct (String.eqb_spec (md_name r) name) as [E|E]; [|reflexivity].
  destruct (String.eqb_spec (md_service r) service) as [E'|E']; [|reflexivity].
  now elim (H r Hr E').
Qed.

Lemma select_metadata_absent (service name : string) (l : list metadata_row) :
  (forall r, In r l -> md_service r = service -> md_name r <> name) ->
  forall r, In r l ->
    (md_service r =? service)%string && (md_name r =? name)%string = false.
Proof.
  intros H r Hr. rewrite andb_comm. now apply where_metadata_absent with (l := l).
Qed.

(** ** The metadata store *)

Lemma update_metadata_online (service name value : string) (d : db) :
  update_metadata service name value (online d) =
    (Ok tt, online (snd (_UPDATE_METADATA service name value d))).
Proof. reflexivity. Qed.

Lemma set_metadata_online_fresh (service name value : string) (d : db) :
  (forall r, In r (metadata d) -> md_service r = service -> md_name r <> name) ->
  set_metadata service name value (online d) =
    (Ok tt, online (set_metadata_rows
                      (metadata d ++ [mk_metadata service name value]) d)).
Proof.
  intros H. unfold set_metadata, bind, _safe_execute.
  rewrite engine_execute_online. unfold _INSERT_METADATA.
  rewrite (existsb_none _ _ (where_metadata_absent _ _ _ H)). reflexivity.
Qed.

(** C6 (the code at a duplicate key).  With the engine reachable,
    [set_metadata] on a [(service, name)] that already has a row does fail,
    but with the engine's own [IntegrityError]: [_safe_execute] re-raises
    only [OperationalError] and [TimeoutError] as [BackendError], so the
    failure leaves the method with a class that is not [BackendError]; the
    tables are untouched. *)
Theorem set_metadata_duplicate_raises_IntegrityError
        (service name value : string) (d : db) :
  (exists r, In r (metadata d) /\ md_service r = service /\ md_name r = name) ->
  exists e,
    set_metadata service name value (online d) = (Raise e, online d) /\
    type_of e = IntegrityErrorT /\ type_of e <> BackendErrorT.
Proof.
  intros (r & Hr & Hs & Hn).
  assert (E : existsb (where_metadata service name) (metadata d) = true).
  { apply existsb_exists. exists r. split; [assumption|].
    unfold where_metadata. rewrite Hs, Hn, !String.eqb_refl. reflexivity. }
  eexists. unfold set_metadata, bind, _safe_execute.
  rewrite engine_execute_online. unfold _INSERT_METADATA. rewrite E. simpl.
  repeat split. discriminate.
Qed.

Lemma set_metadata_duplicate_raises_IntegrityError_witness :
  let d := mk_db [] [] [mk_metadata "sync" "x" "1"] 1 in
  (exists r, In r (metadata d) /\ md_service r = "sync" /\ md_name r = "x") /\
  exists e,
    set_metadata "sync" "x" "3" (online d) = (Raise e, online d) /\
    type_of e = IntegrityErrorT /\ type_of e <> BackendErrorT.
Proof.
  intros d.
  assert (H : exists r, In r (metadata d) /\ md_service r = "sync" /\ md_name r = "x").
  { exists (mk_metadata "sync" "x" "1"). simpl. auto. }
  split; [exact H|].
  exact (set_metadata_duplicate_raises_IntegrityError "sync" "x" "3" d H).
Defined.

(** C7.  Metadata round trip: from tables without a [(s, "x")] row and with
    the engine reachable, [set_metadata(s, "x", "1")], then
    [update_metadata(s, "x", "2")], then [get_metadata(s, "x")] returns
    ["2"]; the table ends with the one new row [(s, "x", "2")] after the
    rows it had. *)
Theorem metadata_set_update_get (s : string) (d : db) :
  (forall r, In r (metadata d) -> md_service r = s -> md_name r <> "x") ->
  (set_metadata s "x" "1" ;;; update_metadata s "x" "2" ;;; get_metadata s "x")
    (online d) =
  (Ok (Some "2"),
   online (set_metadata_rows (metadata d ++ [mk_metadata s "x" "2"]) d)).
Proof.
  intros H. unfold bind at 1. rewrite (set_metadata_online_fresh _ _ _ _ H).
  unfold bind at 1. rewrite update_metadata_online.
  rewrite get_metadata_online.
  unfold _UPDATE_METADATA, set_metadata_rows, stored_metadata; simpl.
  rewrite map_app, (map_if_none _ _ _ (where_metadata_absent _ _ _ H)). simpl.
  unfold where_metadata at 1; simpl. rewrite String.eqb_refl. simpl.
  rewrite filter_app, (filter_none _ _ (select_metadata_absent _ _ _ H)). simpl.
  unfold where_metadata; simpl. rewrite !String.eqb_refl. reflexivity.
Qed.

Lemma metadata_set_update_get_witness :
  let d := mk_db [] [] [mk_metadata "sync" "terms-of-service" "http://tos";
                        mk_metadata "other" "x" "0"] 1 in
  (forall r, In r (metadata d) -> md_service r = "sync" -> md_name r <> "x") /\
  (set_metadata "sync" "x" "1" ;;; update_metadata "sync" "x" "2" ;;;
   get_metadata "sync" "x") (online d) =
  (Ok (Some "2"),
   online (set_metadata_rows (metadata d ++ [mk_metadata "sync" "x" "2"]) d)).
Proof.
  intros d.
  assert (H : forall r, In r (metadata d) -> md_service r = "sync" -> md_name r <> "x").
  { simpl. intros r [<-|[<-|[]]]; simpl; intros; discriminate. }
  split; [exact H|].
  exact (metadata_set_update_get "sync" d H).
Defined.

(** C8.  With the engine reachable, [update_metadata] on a
    [(service, name)] that has no row returns normally and leaves the
    database, and so every row of [metadata], as it was. *)
Theorem update_metadata_absent_noop (service name value : string) (d : db) :
  (forall r, In r (metadata d) -> md_service r = service -> md_name r <> name) ->
  update_metadata service name value (online d) = (Ok tt, online d).
Proof.
  intros H. rewrite update_metadata_online. unfold _UPDATE_METADATA; simpl.
  rewrite (map_if_none _ _ _ (where_metadata_absent _ _ _ H)).
  now rewrite set_metadata_rows_same.
Qed.

Lemma update_metadata_absent_noop_witness :
  let d := mk_db [] [] [mk_metadata "sync" "terms-of-service" "http://tos";
                        mk_metadata "other" "x" "0"] 1 in
  (forall r, In r (metadata d) -> md_service r = "sync" -> md_name r <> "x") /\
  update_metadata "sync" "x" "2" (online d) = (Ok tt, online d).
Proof.
  intros d.
  assert (H : forall r, In r (metadata d) -> md_service r = "sync" -> md_name r <> "x").
  { simpl. intros r [<-|[<-|[]]]; simpl; intros; discriminate. }
  split; [exact H|].
  exact (update_metadata_absent_noop "sync" "x" "2" d H).
Defined.

(** ** Selecting and claiming a node *)

Lemma insert_by_In (x y : node_row) (l : list node_row) :
  In y (insert_by x l) <-> y = x \/ In y l.
Proof.
  induction l as [|a l IH]; simpl.
  - intuition congruence.
  - destruct (ratio_leb x a); simpl; [intuition congruence|].
    rewrite IH. intuition congruence.
Qed.

Lemma order_by_In (y : node_row) (l : list node_row) :
  In y (order_by l) <-> In y l.
Proof.
  induction l as [|a l IH]; simpl; [tauto|].
  rewrite insert_by_In, IH. intuition congruence.
Qed.

Lemma insert_by_cons (x : node_row) (l : list node_row) :
  exists y l', insert_by x l = y :: l'.
Proof. destruct l as [|a l]; simpl; [|destruct (ratio_leb x a)]; eauto. Qed.

Lemma hd_error_limit_1 {R} (l : list R) : hd_error (limit 1 l) = hd_error l.
Proof. now destruct l. Qed.

(** The selected row is a row of the table that passes the [where]. *)
Lemma selected_node_In (service : string) (d : db) (one : node_row) :
  selected_node service d = Some one ->
  In one (nodes d) /\ where_best service one = true.
Proof.
  unfold selected_node. rewrite hd_error_limit_1. intros H.
  assert (I : In one (order_by (filter (where_best service) (nodes d)))).
  { destruct (order_by _); [discriminate|]. injection H as ->. now left. }
  apply order_by_In, filter_In in I. exact I.
Qed.

(** The select finds a row as soon as one passes the [where]. *)
Lemma selected_node_Some (service : string) (d : db) (r : node_row) :
  In r (nodes d) -> where_best service r = true ->
  exists one, selected_node service d = Some one.
Proof.
  intros I W. unfold selected_node. rewrite hd_error_limit_1.
  assert (F : In r (filter (where_best service) (nodes d)))
    by (apply filter_In; auto).
  destruct (filter _ _) as [|a l]; [contradiction|]. simpl.
  destruct (insert_by_cons a (order_by l)) as (y & l' & ->). simpl. eauto.
Qed.

Lemma selected_node_None (service : string) (d : db) :
  (forall r, In r (nodes d) -> where_best service r = false) ->
  selected_node service d = None.
Proof.
  intros H. unfold selected_node. now rewrite (filter_none _ _ H).
Qed.

Lemma get_best_node_online (service : string) (d : db) :
  get_best_node service (online d) =
    match selected_node service d with
    | None => (Raise (BackendError "unable to get a node"), online d)
    | Some one =>
        (Ok (n_node one), online (snd (update_claim service (n_node one) d)))
    end.
Proof.
  unfold get_best_node, get_best_node_select, bind at 1 2.
  rewrite (safe_execute_online_Ok (select_best service) d d _ eq_refl).
  unfold selected_node, fetchone; simpl.
  now destruct (hd_error _).
Qed.

Lemma get_best_node_Ok_inv (service node : string) (w w1 : world) :
  get_best_node service w = (Ok node, w1) ->
  exists one,
    selected_node service (tables w) = Some one /\ node = n_node one /\
    tables w1 = snd (update_claim service node (tables w)).
Proof.
  unfold get_best_node, get_best_node_select, get_best_node_update. intros H.
  apply bind_Ok_inv in H as (n & w' & H1 & H2).
  apply bind_Ok_inv in H1 as (res & w0 & H0 & H1).
  apply safe_execute_Ok_inv in H0 as [H0 _].
  unfold select_best, selected in H0. injection H0 as <- T.
  apply bind_Ok_inv in H2 as ([] & w2 & H2 & H3).
  apply bind_Ok_inv in H2 as (res2 & w3 & H2 & H4).
  apply safe_execute_Ok_inv in H2 as [H2 _].
  injection H4 as <-. injection H3 as <- <-.
  unfold fetchone in H1; simpl in H1. unfold selected_node.
  destruct (hd_error _) as [one|]; [|discriminate].
  injection H1 as <- <-. exists one. repeat split.
  unfold update_claim in *. injection H2 as _ <-. now rewrite T.
Qed.

(** ** Assignments *)

Lemma where_user_absent (email service : string) (l : list user_node) :
  (forall r, In r l -> un_email r = email -> un_service r <> service) ->
  forall r, In r l -> where_user email service r = false.
Proof.
  intros H r Hr. unfold where_user.
  destruct (String.eqb_spec (un_email r) email) as [E|E]; [|reflexivity].
  destruct (String.eqb_spec (un_service r) service) as [E'|E']; [|reflexivity].
  now elim (H r Hr E).
Qed.

Lemma stored_user_absent (email service : string) (d : db) :
  (forall r, In r (user_nodes d) -> where_user email service r = false) ->
  stored_user email service d = None.
Proof. intros H. unfold stored_user. now rewrite (filter_none _ _ H). Qed.

Lemma stored_user_None_inv (email service : string) (d : db) :
  stored_user email service d = None ->
  forall r, In r (user_nodes d) -> where_user email service r = false.
Proof.
  unfold stored_user. intros H. apply filter_nil_none.
  now destruct (filter _ _).
Qed.

(** The row an allocation appends is the one [get_node] finds afterwards. *)
Lemma stored_user_allocated (email service node : string) (d : db) :
  (forall r, In r (user_nodes d) -> where_user email service r = false) ->
  stored_user email service (allocated email service node d) =
    Some (mk_user_node (next_uid d) service email node 1).
Proof.
  intros H. unfold stored_user, allocated; simpl.
  rewrite filter_app, (filter_none _ _ H). simpl.
  unfold where_user; simpl. now rewrite !String.eqb_refl.
Qed.

Lemma allocate_node_online_fresh (email service : string) (d : db) (one : node_row) :
  (forall r, In r (user_nodes d) -> where_user email service r = false) ->
  selected_node service d = Some one ->
  allocate_node email service (online d) =
    (Ok (next_uid d, n_node one), online (allocated email service (n_node one) d)).
Proof.
  intros H S. unfold allocate_node, bind at 1.
  rewrite get_node_online. unfold node_of.
  rewrite (stored_user_absent _ _ _ H).
  unfold bind at 1. rewrite get_best_node_online, S.
  unfold bind, _safe_execute. rewrite engine_execute_online.
  unfold _INSERT, update_claim; simpl.
  now rewrite (existsb_none _ _ H).
Qed.

Lemma allocate_node_online_assigned (email service : string) (d : db) (u : user_node) :
  stored_user email service d = Some u ->
  allocate_node email service (online d) =
    (Raise (BackendError "Node already assigned"), online d).
Proof.
  intros H. unfold allocate_node, bind.
  rewrite get_node_online. unfold node_of. now rewrite H.
Qed.

(** Whatever the schedule, an allocation that returns found no row for the
    pair, took the selected node and appended one row. *)
Lemma allocate_node_Ok_inv (email service node : string) (uid : Z) (w w1 : world) :
  allocate_node email service w = (Ok (uid, node), w1) ->
  (forall r, In r (user_nodes (tables w)) -> where_user email service r = false) /\
  uid = next_uid (tables w) /\
  (exists one, selected_node service (tables w) = Some one /\ node = n_node one) /\
  tables w1 = allocated email service node (tables w).
Proof.
  unfold allocate_node. intros H.
  apply bind_Ok_inv in H as (r & w' & H1 & H2).
  apply get_node_Ok_inv in H1 as [T ->]. unfold node_of in H2.
  destruct (stored_user email service (tables w)) as [u|] eqn:U; [discriminate|].
  apply bind_Ok_inv in H2 as (n & w2 & H2 & H3).
  apply get_best_node_Ok_inv in H2 as (one & S & -> & T2).
  apply bind_Ok_inv in H3 as (res & w3 & H3 & H4).
  apply safe_execute_Ok_inv in H3 as [H3 _].
  injection H4 as <- <- <-.
  pose proof (stored_user_None_inv _ _ _ U) as A.
  rewrite T in S, T2.
  unfold _INSERT in H3. rewrite T2 in H3. simpl in H3.
  rewrite (existsb_none _ _ A) in H3. injection H3 as <- <-.
  repeat split; eauto.
Qed.

Lemma filter_map_commute {A} (p : A -> bool) (f : A -> A) (l : list A) :
  (forall x, p (f x) = p x) -> filter p (map f l) = map f (filter p l).
Proof.
  intros H. induction l as [|a l IH]; simpl; [reflexivity|].
  rewrite H. destruct (p a); simpl; now rewrite IH.
Qed.

Lemma where_user_true (email service : string) (u : user_node) :
  where_user email service u = true -> un_email u = email /\ un_service u = service.
Proof.
  unfold where_user. intros H. apply andb_true_iff in H as [E1 E2].
  now apply String.eqb_eq in E1, E2.
Qed.

(** C2 (the code after [set_tos]).  With the engine reachable, [set_tos]
    writes 0 in the flag of every row of the service, and 0 is a value that
    [get_node] reads as signed: whatever a user's flag was, the [get_node]
    that follows [set_tos(service, url)] answers [(uid, node, None)] for
    every assigned user of the service, so the new url is not surfaced. *)
Theorem set_tos_then_get_node_hides_url
        (email service url : string) (d : db) (u : user_node) (rest : list user_node) :
  filter (where_user email service) (user_nodes d) = u :: rest ->
  exists d1,
    (set_tos service url ;;; get_node email service) (online d) =
      (Ok (Some (un_uid u), Some (un_node u), None), online d1).
Proof.
  intros F.
  assert (W : where_user email service u = true).
  { assert (I : In u (filter (where_user email service) (user_nodes d)))
      by (rewrite F; now left).
    now apply filter_In in I. }
  destruct (where_user_true _ _ _ W) as [_ Sv].
  eexists. unfold bind at 1.
  change (set_tos service url (online d)) with
    (Ok tt, online (snd (update_tos_flag service 0 None
                           (snd (_UPDATE_METADATA service "terms-of-service" url d))))).
  cbv beta iota. rewrite get_node_online. unfold node_of, stored_user; simpl.
  rewrite filter_map_commute, F.
  - simpl. unfold where_tos_flag. rewrite Sv, String.eqb_refl. simpl. reflexivity.
  - intros x. destruct (where_tos_flag service None x); reflexivity.
Qed.

Lemma set_tos_then_get_node_hides_url_witness :
  filter (where_user "u@x" "sync") (user_nodes signed_db) =
    [mk_user_node 1 "sync" "u@x" "https://a.example" 0] /\
  exists d1,
    (set_tos "sync" "http://tos/2" ;;; get_node "u@x" "sync") (online signed_db) =
      (Ok (Some 1, Some "https://a.example", None), online d1).
Proof.
  split; [reflexivity|].
  exact (set_tos_then_get_node_hides_url "u@x" "sync" "http://tos/2" signed_db
           (mk_user_node 1 "sync" "u@x" "https://a.example" 0) [] eq_refl).
Defined.

(** C3.  Once [allocate_node(email, service)] has returned [(uid, node)],
    and with the engine reachable from then on, a second call raises
    [BackendError("Node already assigned")] and leaves the database as the
    first call left it; the table holds exactly one row for the pair, and
    [get_node] answers with the same [uid] and [node]. *)
Theorem allocate_node_twice
        (email service node : string) (uid : Z) (w w1 : world) :
  allocate_node email service w = (Ok (uid, node), w1) ->
  faults w1 = [] ->
  allocate_node email service w1 =
    (Raise (BackendError "Node already assigned"), w1) /\
  filter (where_user email service) (user_nodes (tables w1)) =
    [mk_user_node uid service email node 1] /\
  exists tos, get_node email service w1 = (Ok (Some uid, Some node, tos), w1).
Proof.
  intros H F.
  apply allocate_node_Ok_inv in H as (A & -> & _ & T).
  rewrite (online_eta w1 F), T.
  pose proof (stored_user_allocated email service node _ A) as U.
  split; [|split].
  - now apply allocate_node_online_assigned with (u := mk_user_node (next_uid (tables w)) service email node 1).
  - unfold allocated; simpl. rewrite filter_app, (filter_none _ _ A). simpl.
    unfold where_user; simpl. now rewrite !String.eqb_refl.
  - eexists. rewrite get_node_online. unfold node_of. rewrite U. reflexivity.
Qed.

Lemma allocate_node_twice_witness :
  let w := mk_world sync_db [None; None; None; None; None] in
  let w1 := online (allocated "u@x" "sync" "https://b.example" sync_db) in
  allocate_node "u@x" "sync" w = (Ok (1, "https://b.example"), w1) /\
  faults w1 = [] /\
  allocate_node "u@x" "sync" w1 =
    (Raise (BackendError "Node already assigned"), w1) /\
  filter (where_user "u@x" "sync") (user_nodes (tables w1)) =
    [mk_user_node 1 "sync" "u@x" "https://b.example" 1] /\
  exists tos,
    get_node "u@x" "sync" w1 = (Ok (Some 1, Some "https://b.example", tos), w1).
Proof.
  intros w w1.
  assert (H : allocate_node "u@x" "sync" w = (Ok (1, "https://b.example"), w1))
    by reflexivity.
  split; [exact H|]. split; [reflexivity|].
  exact (allocate_node_twice "u@x" "sync" "https://b.example" 1 w w1 H eq_refl).
Defined.

(** C9.  A fresh assignment starts unsigned, in the polarity of
    [get_node].  With the engine reachable, for a pair without a row and a
    service with a node that passes the [where] of [get_best_node]:
    [allocate_node] returns some [(uid, node)] and appends the row
    [(uid, service, email, node, 1)]; the [get_node] that follows answers
    [(uid, node, tos)] where [tos] is the value of the first row that
    [metadata] holds for the service under ["terms-of-service"] ([None]
    when it holds none).  And in general [get_node] shows that value for a
    found row exactly when its flag is 1, and answers [None] as third
    component for any other flag. *)
Theorem allocate_node_starts_unsigned (email service : string) (d : db) :
  (forall r, In r (user_nodes d) -> un_email r = email -> un_service r <> service) ->
  (exists n, In n (nodes d) /\ where_best service n = true) ->
  (exists uid node d1,
      allocate_node email service (online d) = (Ok (uid, node), online d1) /\
      user_nodes d1 = (user_nodes d ++ [mk_user_node uid service email node 1])%list /\
      get_node email service (online d1) =
        (Ok (Some uid, Some node,
             option_map md_value
               (hd_error (filter (where_metadata service "terms-of-service")
                                 (metadata d)))),
         online d1)) /\
  (forall (d' : db) (u : user_node) (rest : list user_node),
      filter (where_user email service) (user_nodes d') = u :: rest ->
      get_node email service (online d') =
        (Ok (Some (un_uid u), Some (un_node u),
             if un_tos_signed u =? 1
             then option_map md_value
                    (hd_error (filter (where_metadata service "terms-of-service")
                                      (metadata d')))
             else None), online d')).
Proof.
  assert (K : forall x,
             stored_metadata service "terms-of-service" x =
             option_map md_value
               (hd_error (filter (where_metadata service "terms-of-service")
                                 (metadata x)))).
  { intros x. unfold stored_metadata. do 2 f_equal. apply filter_ext.
    intros r. unfold where_metadata. apply andb_comm. }
  intros H (n & I & W). split.
  - pose proof (where_user_absent _ _ _ H) as A.
    destruct (selected_node_Some _ _ _ I W) as (one & S).
    exists (next_uid d), (n_node one), (allocated email service (n_node one) d).
    rewrite (allocate_node_online_fresh _ _ _ _ A S).
    split; [reflexivity|]. split; [reflexivity|].
    rewrite get_node_online. unfold node_of.
    rewrite (stored_user_allocated _ _ _ _ A). simpl.
    now rewrite K.
  - intros d' u rest F.
    rewrite get_node_online. unfold node_of, stored_user. rewrite F. simpl.
    now rewrite K.
Qed.

Lemma allocate_node_starts_unsigned_witness :
  let d1 := allocated "u@x" "sync" "https://b.example" sync_db in
  (forall r, In r (user_nodes sync_db) -> un_email r = "u@x" -> un_service r <> "sync") /\
  (exists n, In n (nodes sync_db) /\ where_best "sync" n = true) /\
  allocate_node "u@x" "sync" (online sync_db) =
    (Ok (1, "https://b.example"), online d1) /\
  user_nodes d1 = [mk_user_node 1 "sync" "u@x" "https://b.example" 1] /\
  get_node "u@x" "sync" (online d1) =
    (Ok (Some 1, Some "https://b.example", Some "http://tos/1"), online d1) /\
  (exists uid node d1,
      allocate_node "u@x" "sync" (online sync_db) = (Ok (uid, node), online d1) /\
      user_nodes d1 = (user_nodes sync_db ++ [mk_user_node uid "sync" "u@x" node 1])%list /\
      get_node "u@x" "sync" (online d1) =
        (Ok (Some uid, Some node,
             option_map md_value
               (hd_error (filter (where_metadata "sync" "terms-of-service")
                                 (metadata sync_db)))),
         online d1)).
Proof.
  intros d1.
  assert (H1 : forall r, In r (user_nodes sync_db) ->
                         un_email r = "u@x" -> un_service r <> "sync")
    by (intros r []).
  assert (H2 : exists n, In n (nodes sync_db) /\ where_best "sync" n = true).
  { exists (mk_node "sync" "https://b.example" 5 8 10 0 0). split; [now left|reflexivity]. }
  split; [exact H1|]. split; [exact H2|].
  split; [reflexivity|]. split; [reflexivity|]. split; [reflexivity|].
  exact (proj1 (allocate_node_starts_unsigned "u@x" "sync" sync_db H1 H2)).
Defined.

(** C10.  The three failures have one class.  With the engine reachable,
    [get_best_node] for a service without a row passing its [where] raises
    [BackendError('unable to get a node')], and [allocate_node] for a pair
    that has a row raises [BackendError("Node already assigned")]; and a
    connectivity or timeout failure of the engine leaves [_safe_execute] as
    [BackendError(str(exc))].  The class of all three is [BackendError];
    only the message differs. *)
Theorem failures_raise_BackendError
        (service1 : string) (d1 : db)
        (email service2 : string) (d2 : db) (u : user_node) (rest : list user_node)
        (R : Type) (q : statement R) (w : world) (f : fault)
        (schedule : list (option fault)) :
  (forall r, In r (nodes d1) -> where_best service1 r = false) ->
  filter (where_user email service2) (user_nodes d2) = u :: rest ->
  faults w = Some f :: schedule ->
  exists e1 e2 e3,
    (get_best_node service1 (online d1) = (Raise e1, online d1) /\
     allocate_node email service2 (online d2) = (Raise e2, online d2) /\
     _safe_execute q w = (Raise e3, mk_world (tables w) schedule)) /\
    (e1 = BackendError "unable to get a node" /\
     e2 = BackendError "Node already assigned" /\
     e3 = BackendError (str (exn_of_fault f))) /\
    (type_of e1 = BackendErrorT /\ type_of e2 = BackendErrorT /\
     type_of e3 = BackendErrorT).
Proof.
  intros H1 H2 H3.
  exists (BackendError "unable to get a node"),
         (BackendError "Node already assigned"),
         (BackendError (str (exn_of_fault f))).
  split; [|split; repeat split].
  repeat split.
  - rewrite get_best_node_online. now rewrite (selected_node_None _ _ H1).
  - apply allocate_node_online_assigned with (u := u).
    unfold stored_user. now rewrite H2.
  - now apply safe_execute_fault.
Qed.

Lemma failures_raise_BackendError_witness :
  let d1 := mk_db [] [mk_node "sync" "https://a.example" 0 10 10 0 0] [] 1 in
  let u := mk_user_node 1 "sync" "u@x" "https://a.example" 0 in
  let w := mk_world sync_db [Some (ConnectionLost "server has gone away")] in
  (forall r, In r (nodes d1) -> where_best "sync" r = false) /\
  filter (where_user "u@x" "sync") (user_nodes signed_db) = [u] /\
  faults w = [Some (ConnectionLost "server has gone away")] /\
  exists e1 e2 e3,
    (get_best_node "sync" (online d1) = (Raise e1, online d1) /\
     allocate_node "u@x" "sync" (online signed_db) = (Raise e2, online signed_db) /\
     _safe_execute (select_best "sync") w = (Raise e3, mk_world (tables w) [])) /\
    (e1 = BackendError "unable to get a node" /\
     e2 = BackendError "Node already assigned" /\
     e3 = BackendError (str (exn_of_fault (ConnectionLost "server has gone away")))) /\
    (type_of e1 = BackendErrorT /\ type_of e2 = BackendErrorT /\
     type_of e3 = BackendErrorT).
Proof.
  intros d1 u w.
  assert (H1 : forall r, In r (nodes d1) -> where_best "sync" r = false)
    by (intros r [<-|[]]; reflexivity).
  split; [exact H1|]. split; [reflexivity|]. split; [reflexivity|].
  exact (failures_raise_BackendError "sync" d1 "u@x" "sync" signed_db u []
           node_row (select_best "sync") w
           (ConnectionLost "server has gone away") [] H1 eq_refl eq_refl).
Defined.

(** ** [get_best_node] under any schedule *)

(** Either the call raised and the tables are as before, or it returned
    the address of the selected row and ran its update. *)
Lemma get_best_node_cases (service : string) (w w1 : world) (r : result string) :
  get_best_node service w = (r, w1) ->
  (tables w1 = tables w /\ exists e, r = Raise e) \/
  (exists one,
      selected_node service (tables w) = Some one /\ r = Ok (n_node one) /\
      tables w1 = snd (update_claim service (n_node one) (tables w))).
Proof.
  unfold get_best_node, get_best_node_select, get_best_node_update, bind,
    _safe_execute, engine_execute, selected_node, fetchone, limit.
  destruct w as [d fs]; simpl.
  destruct (order_by (filter (where_best service) (nodes d))) as [|one l];
    destruct fs as [|[f|] [|[g|] fs]]; simpl;
    try destruct f; try destruct g; simpl;
    intros H; injection H as <- <-; simpl; eauto.
Qed.

Lemma unique_nodes_key (l : list node_row) (x y : node_row) :
  unique_nodes l -> In x l -> In y l ->
  n_service x = n_service y -> n_node x = n_node y -> x = y.
Proof.
  unfold unique_nodes. induction l as [|a l IH]; simpl; [contradiction|].
  intros U Ix Iy Es En. inversion U as [|? ? Na Ul]; subst.
  assert (K : forall z, In z l -> n_service z = n_service a ->
                        n_node z = n_node a -> False).
  { intros z Iz E1 E2. apply Na. apply in_map_iff. exists z.
    split; [now rewrite E1, E2|assumption]. }
  destruct Ix as [<-|Ix], Iy as [<-|Iy]; auto.
  - exfalso. eapply K; eauto.
  - exfalso. eapply K; eauto.
Qed.

(** In a table with one row per [(service, node)], every row has its own
    address. *)
Lemma unique_nodes_own_address (l : list node_row) (N : node_row) :
  unique_nodes l -> In N l -> own_address N l.
Proof.
  intros U I r Ir Es En. now apply (unique_nodes_key l r N U Ir I).
Qed.

Lemma where_best_true (service : string) (r : node_row) :
  where_best service r = true ->
  n_service r = service /\ n_available r > 0 /\
  n_capacity r > n_current_load r /\ n_downed r = 0.
Proof.
  unfold where_best. rewrite !andb_true_iff.
  intros [[[E1 E2] E3] E4].
  apply String.eqb_eq in E1. apply Z.gtb_gt in E2, E3. apply Z.eqb_eq in E4.
  auto.
Qed.

(** C4.  A node at capacity is passed over.  Whatever the engine does, a
    row [N] of the service with [current_load = capacity], whose address no
    other row of the service bears, fails the [where] of the select, is not
    the one whose address [get_best_node] returns, and is left by the call
    as it is, where it is. *)
Theorem get_best_node_skips_full_node
        (S : string) (N : node_row) (w w1 : world) (r : result string) :
  In N (nodes (tables w)) ->
  n_service N = S ->
  own_address N (nodes (tables w)) ->
  n_current_load N = n_capacity N ->
  get_best_node S w = (r, w1) ->
  where_best S N = false /\
  r <> Ok (n_node N) /\
  (forall i, nth_error (nodes (tables w)) i = Some N ->
             nth_error (nodes (tables w1)) i = Some N) /\
  In N (nodes (tables w1)).
Proof.
  intros I Sv U Full H.
  assert (X : where_best S N = false).
  { unfold where_best. rewrite Full.
    rewrite (Z.gtb_ltb (n_capacity N)), Z.ltb_irrefl.
    now rewrite andb_false_r. }
  assert (P : r <> Ok (n_node N) /\
              forall i, nth_error (nodes (tables w)) i = Some N ->
                        nth_error (nodes (tables w1)) i = Some N).
  { apply get_best_node_cases in H as [[T [e ->]]|(one & Sel & -> & T)].
    - split; [discriminate|]. now rewrite T.
    - apply selected_node_In in Sel as [I1 W1].
      assert (D : n_node one <> n_node N).
      { intros E. assert (one = N).
        { apply U; auto. apply where_best_true in W1. destruct W1; congruence. }
        subst one. congruence. }
      split; [congruence|].
      intros i Hi. rewrite T. unfold update_claim; simpl.
      rewrite (nth_error_map_if _ _ _ _ _ Hi).
      unfold where_node.
      destruct (String.eqb_spec (n_node N) (n_node one)) as [E|E];
        [now elim D|]. now rewrite andb_false_r. }
  destruct P as [P1 P2]. repeat split; auto.
  destruct (In_nth_error _ _ I) as [i Hi].
  eapply nth_error_In, P2, Hi.
Qed.

Lemma get_best_node_skips_full_node_witness :
  let full := mk_node "sync" "https://c.example" 3 10 10 0 0 in
  let w := mk_world (mk_db [] (full :: sync_nodes) [] 1) [None; None] in
  let w1 := online (mk_db [] [full;
                              mk_node "sync" "https://b.example" 4 9 10 0 0;
                              mk_node "sync" "https://a.example" 5 2 10 0 0] [] 1) in
  In full (nodes (tables w)) /\
  n_service full = "sync" /\
  own_address full (nodes (tables w)) /\
  n_current_load full = n_capacity full /\
  get_best_node "sync" w = (Ok "https://b.example", w1) /\
  where_best "sync" full = false /\
  Ok "https://b.example" <> Ok (n_node full) /\
  (forall i, nth_error (nodes (tables w)) i = Some full ->
             nth_error (nodes (tables w1)) i = Some full) /\
  In full (nodes (tables w1)).
Proof.
  intros full w w1.
  assert (I : In full (nodes (tables w))) by now left.
  assert (U : own_address full (nodes (tables w))).
  { intros x [<-|[<-|[<-|[]]]] _ E; [reflexivity|discriminate E|discriminate E]. }
  assert (H : get_best_node "sync" w = (Ok "https://b.example", w1)) by reflexivity.
  split; [exact I|]. split; [reflexivity|]. split; [exact U|]. split; [reflexivity|].
  split; [exact H|].
  exact (get_best_node_skips_full_node "sync" full w w1 (Ok "https://b.example")
           I eq_refl U eq_refl H).
Defined.

(** ** The allocation scenario *)

(** C5 (the code on the scenario).  Service ["sync"] has exactly two rows
    that pass the [where] of [get_best_node]: A with load 2 of 10 and B with
    load 8 of 10, at different addresses.  The sort key is the integer
    quotient, 0 for both, so the order of storage decides: with the engine
    reachable, [allocate_node("u@x", "sync")] for a user without a row
    returns the address of the one stored first.  When that is A, A's row
    then has [current_load = 3] and one slot less and B's row is as it was;
    when that is B, the more loaded node is the one returned: B's row then
    has [current_load = 9] and one slot less, and A's row is as it was. *)
Theorem allocate_node_takes_first_stored
        (a b : string) (avA boA avB boB : Z) (d : db) :
  a <> b ->
  (forall r, In r (user_nodes d) -> un_email r = "u@x" -> un_service r <> "sync") ->
  (filter (where_best "sync") (nodes d) = [node_A a avA boA; node_B b avB boB] ->
   exists uid d1,
     allocate_node "u@x" "sync" (online d) = (Ok (uid, a), online d1) /\
     (forall i, nth_error (nodes d) i = Some (node_A a avA boA) ->
                nth_error (nodes d1) i = Some (mk_node "sync" a (avA - 1) 3 10 0 boA)) /\
     (forall i, nth_error (nodes d) i = Some (node_B b avB boB) ->
                nth_error (nodes d1) i = Some (node_B b avB boB))) /\
  (filter (where_best "sync") (nodes d) = [node_B b avB boB; node_A a avA boA] ->
   exists uid d1,
     allocate_node "u@x" "sync" (online d) = (Ok (uid, b), online d1) /\
     (forall i, nth_error (nodes d) i = Some (node_B b avB boB) ->
                nth_error (nodes d1) i = Some (mk_node "sync" b (avB - 1) 9 10 0 boB)) /\
     (forall i, nth_error (nodes d) i = Some (node_A a avA boA) ->
                nth_error (nodes d1) i = Some (node_A a avA boA))).
Proof.
  intros D H. pose proof (where_user_absent _ _ _ H) as U.
  split; intros F.
  - assert (S : selected_node "sync" d = Some (node_A a avA boA))
      by (unfold selected_node; rewrite F; reflexivity).
    exists (next_uid d), (allocated "u@x" "sync" a d).
    rewrite (allocate_node_online_fresh _ _ _ _ U S).
    split; [reflexivity|]. unfold allocated; simpl. split; intros i Hi.
    + rewrite (nth_error_map_if _ _ _ _ _ Hi).
      unfold where_node; simpl. now rewrite String.eqb_refl.
    + rewrite (nth_error_map_if _ _ _ _ _ Hi).
      unfold where_node; simpl.
      destruct (String.eqb_spec b a) as [E|E]; [now elim D|reflexivity].
  - assert (S : selected_node "sync" d = Some (node_B b avB boB))
      by (unfold selected_node; rewrite F; reflexivity).
    exists (next_uid d), (allocated "u@x" "sync" b d).
    rewrite (allocate_node_online_fresh _ _ _ _ U S).
    split; [reflexivity|]. unfold allocated; simpl. split; intros i Hi.
    + rewrite (nth_error_map_if _ _ _ _ _ Hi).
      unfold where_node; simpl. now rewrite String.eqb_refl.
    + rewrite (nth_error_map_if _ _ _ _ _ Hi).
      unfold where_node; simpl.
      destruct (String.eqb_spec a b) as [E|E]; [now elim D|reflexivity].
Qed.

Lemma allocate_node_takes_first_stored_witness :
  let a := "https://a.example" in
  let b := "https://b.example" in
  a <> b /\
  (forall r, In r (user_nodes sync_db) -> un_email r = "u@x" -> un_service r <> "sync") /\
  filter (where_best "sync") (nodes sync_db) = [node_B b 5 0; node_A a 5 0] /\
  allocate_node "u@x" "sync" (online sync_db) =
    (Ok (1, b), online (allocated "u@x" "sync" b sync_db)) /\
  nodes (allocated "u@x" "sync" b sync_db) =
    [mk_node "sync" b 4 9 10 0 0; node_A a 5 0] /\
  exists uid d1,
    allocate_node "u@x" "sync" (online sync_db) = (Ok (uid, b), online d1) /\
    (forall i, nth_error (nodes sync_db) i = Some (node_B b 5 0) ->
               nth_error (nodes d1) i = Some (mk_node "sync" b (5 - 1) 9 10 0 0)) /\
    (forall i, nth_error (nodes sync_db) i = Some (node_A a 5 0) ->
               nth_error (nodes d1) i = Some (node_A a 5 0)).
Proof.
  intros a b.
  assert (D : a <> b) by discriminate.
  assert (H : forall r, In r (user_nodes sync_db) ->
                        un_email r = "u@x" -> un_service r <> "sync")
    by (intros r []).
  split; [exact D|]. split; [exact H|]. split; [reflexivity|].
  split; [reflexivity|]. split; [reflexivity|].
  exact (proj2 (allocate_node_takes_first_stored a b 5 0 5 0 sync_db D H) eq_refl).
Defined.

(** ** The write of [get_best_node] *)




(** ** Composing what the statements keep *)

Lemma safe_execute_cases {R} (q : statement R) (w w1 : world)
      (r : result (ResultProxy R)) :
  _safe_execute q w = (r, w1) ->
  (tables w1 = tables w /\
   exists f, r = Raise (BackendError (str (exn_of_fault f)))) \/
  (exists r0, q (tables w) = (r0, tables w1) /\ r = translate r0).
Proof.
  unfold _safe_execute, engine_execute.
  destruct (faults w) as [|[f|] rest]; simpl.
  - destruct (q (tables w)) as [[a|[]] d]; intros H; injection H as <- <-;
      right; eexists; split; reflexivity.
  - destruct f as [m|m]; intros H; injection H as <- <-; left;
      (split; [reflexivity|]);
      [exists (ConnectionLost m)|exists (PoolExhausted m)]; reflexivity.
  - destruct (q (tables w)) as [[a|[]] d]; intros H; injection H as <- <-;
      right; eexists; split; reflexivity.
Qed.

Section Keeps.
Variable T : db -> db -> Prop.
Hypothesis T_refl : forall d, T d d.
Hypothesis T_trans : forall a b c, T a b -> T b c -> T a c.

Lemma keeps_ret {A} (a : A) : keeps T (ret a).
Proof. intros w r w1 H. injection H as _ <-. apply T_refl. Qed.

Lemma keeps_raise {A} (e : exn) : keeps T (@raise A e).
Proof. intros w r w1 H. injection H as _ <-. apply T_refl. Qed.

Lemma keeps_bind {A B} (m : M A) (k : A -> M B) :
  keeps T m -> (forall a, keeps T (k a)) -> keeps T (bind m k).
Proof.
  intros Hm Hk w r w1. unfold bind.
  destruct (m w) as [[a|e] w'] eqn:E; intros H.
  - eapply T_trans; [eapply Hm, E|eapply Hk, H].
  - injection H as _ <-. eapply Hm, E.
Qed.

Lemma keeps_safe_execute {R} (q : statement R) :
  (forall d, T d (snd (q d))) -> keeps T (_safe_execute q).
Proof.
  intros Hq w r w1 H.
  apply safe_execute_cases in H as [[-> _]|(r0 & E & _)]; [apply T_refl|].
  specialize (Hq (tables w)). now rewrite E in Hq.
Qed.

Lemma keeps_get_metadata (service name : string) :
  keeps T (get_metadata service name).
Proof.
  apply keeps_bind; [apply keeps_safe_execute; intros d; apply T_refl|].
  intros res. destruct (fetchone res); apply keeps_ret.
Qed.

Lemma keeps_get_metadata_all (service : string) :
  keeps T (get_metadata_all service).
Proof.
  apply keeps_bind; [apply keeps_safe_execute; intros d; apply T_refl|].
  intros res. apply keeps_ret.
Qed.

Lemma keeps_get_node (email service : string) : keeps T (get_node email service).
Proof.
  apply keeps_bind; [apply keeps_safe_execute; intros d; apply T_refl|].
  intros res. apply keeps_bind.
  - destruct (fetchone res) as [u|];
      [destruct (un_tos_signed u =? 1)|];
      auto using keeps_get_metadata, keeps_ret.
  - intros tos. destruct (fetchone res); apply keeps_ret.
Qed.

Lemma keeps_get_best_node_select (service : string) :
  keeps T (get_best_node_select service).
Proof.
  apply keeps_bind; [apply keeps_safe_execute; intros d; apply T_refl|].
  intros res. destruct (fetchone res); [apply keeps_ret|apply keeps_raise].
Qed.

Hypothesis T_INSERT_METADATA :
  forall s n v d, T d (snd (_INSERT_METADATA s n v d)).
Hypothesis T_UPDATE_METADATA :
  forall s n v d, T d (snd (_UPDATE_METADATA s n v d)).
Hypothesis T_update_tos_flag :
  forall s v e d, T d (snd (update_tos_flag s v e d)).
Hypothesis T_INSERT : forall s e n f d, T d (snd (_INSERT s e n f d)).
Hypothesis T_get_best_node : forall s, keeps T (get_best_node s).

Lemma keeps_set_metadata (service name value : string) :
  keeps T (set_metadata service name value).
Proof.
  apply keeps_bind; [now apply keeps_safe_execute|]. intros _. apply keeps_ret.
Qed.

Lemma keeps_update_metadata (service name value : string) :
  keeps T (update_metadata service name value).
Proof.
  apply keeps_bind; [now apply keeps_safe_execute|]. intros _. apply keeps_ret.
Qed.

Lemma keeps_set_tos_flag (service : string) (value : Z) (email : option string) :
  keeps T (set_tos_flag service value email).
Proof.
  apply keeps_bind; [now apply keeps_safe_execute|]. intros _. apply keeps_ret.
Qed.

Lemma keeps_set_tos (service value : string) : keeps T (set_tos service value).
Proof.
  apply keeps_bind; [apply keeps_update_metadata|].
  intros _. apply keeps_set_tos_flag.
Qed.

Lemma keeps_allocate_node (email service : string) :
  keeps T (allocate_node email service).
Proof.
  apply keeps_bind; [apply keeps_get_node|].
  intros [[[uid|] [node|]] tos]; try apply keeps_raise.
  apply keeps_bind; [apply T_get_best_node|]. intros n.
  apply keeps_bind; [now apply keeps_safe_execute|]. intros res. apply keeps_ret.
Qed.

Lemma perform_keeps (c : call) (w : world) : T (tables w) (tables (perform c w)).
Proof.
  destruct c; simpl;
    match goal with
    | |- T _ (tables (snd (?m w))) =>
        destruct (m w) as [r w1] eqn:E; simpl; revert E
    end;
    [apply keeps_get_node | apply keeps_allocate_node | apply T_get_best_node
     | apply keeps_set_metadata | apply keeps_get_metadata
     | apply keeps_get_metadata_all | apply keeps_update_metadata
     | apply keeps_set_tos | apply keeps_set_tos_flag].
Qed.

Lemma perform_all_keeps (cs : list call) (w : world) :
  T (tables w) (tables (perform_all cs w)).
Proof.
  revert w. induction cs as [|c cs IH]; intros w; simpl; [apply T_refl|].
  eapply T_trans; [apply perform_keeps|apply IH].
Qed.
End Keeps.

(** When the relation holds across the update of [get_best_node] for any
    key, [get_best_node] keeps it. *)
Lemma keeps_get_best_node (T : db -> db -> Prop) :
  (forall d, T d d) -> (forall a b c, T a b -> T b c -> T a c) ->
  (forall s n d, T d (snd (update_claim s n d))) ->
  forall s, keeps T (get_best_node s).
Proof.
  intros Tr Tt Hu s.
  apply keeps_bind; auto using keeps_get_best_node_select.
  intros n. apply keeps_bind; auto; [|intros ?; now apply keeps_ret].
  apply keeps_bind; auto; [now apply keeps_safe_execute|].
  intros ?. now apply keeps_ret.
Qed.

(** ** What the statements leave alone *)

Lemma INSERT_nodes (s e n : string) (f : Z) (d : db) :
  nodes (snd (_INSERT s e n f d)) = nodes d.
Proof. unfold _INSERT. now destruct (existsb _ _). Qed.

Lemma INSERT_metadata (s e n : string) (f : Z) (d : db) :
  metadata (snd (_INSERT s e n f d)) = metadata d.
Proof. unfold _INSERT. now destruct (existsb _ _). Qed.

Lemma INSERT_METADATA_nodes (s n v : string) (d : db) :
  nodes (snd (_INSERT_METADATA s n v d)) = nodes d.
Proof. unfold _INSERT_METADATA. now destruct (existsb _ _). Qed.

Lemma update_tos_flag_nodes (s : string) (v : Z) (e : option string) (d : db) :
  nodes (snd (update_tos_flag s v e d)) = nodes d.
Proof. unfold update_tos_flag. now destruct (sql_integer v). Qed.

Lemma update_tos_flag_metadata (s : string) (v : Z) (e : option string) (d : db) :
  metadata (snd (update_tos_flag s v e d)) = metadata d.
Proof. unfold update_tos_flag. now destruct (sql_integer v). Qed.

Lemma INSERT_METADATA_user_nodes (s n v : string) (d : db) :
  user_nodes (snd (_INSERT_METADATA s n v d)) = user_nodes d.
Proof. unfold _INSERT_METADATA. now destruct (existsb _ _). Qed.

(** ** Assignments are permanent *)

Lemma assigned_stored (email service : string) (uid : Z) (node : string) (d : db) :
  assigned email service uid node d <->
  exists u, stored_user email service d = Some u /\ un_uid u = uid /\ un_node u = node.
Proof.
  unfold assigned. setoid_rewrite get_node_online. unfold node_of. split.
  - intros (tos & H). destruct (stored_user email service d) as [u|].
    + injection H as <- <- _. eauto.
    + discriminate.
  - intros (u & -> & <- & <-). eauto.
Qed.

Lemma hd_error_app_Some {A} (l l' : list A) (x : A) :
  hd_error l = Some x -> hd_error (l ++ l') = Some x.
Proof. now destruct l. Qed.

Lemma assigned_same_users (d d' : db) :
  user_nodes d' = user_nodes d ->
  forall e s uid node, assigned e s uid node d -> assigned e s uid node d'.
Proof.
  intros E e s uid node. rewrite !assigned_stored. unfold stored_user. now rewrite E.
Qed.

Lemma assigned_INSERT (s0 e0 n0 : string) (f0 : Z) (d : db) :
  forall e s uid node,
    assigned e s uid node d -> assigned e s uid node (snd (_INSERT s0 e0 n0 f0 d)).
Proof.
  intros e s uid node. unfold _INSERT.
  destruct (existsb _ _); simpl; [auto|].
  rewrite !assigned_stored. unfold stored_user; simpl.
  intros (u & H & Hu). exists u. split; [|exact Hu].
  rewrite filter_app. now apply hd_error_app_Some.
Qed.

Lemma assigned_update_tos_flag (s0 : string) (v0 : Z) (e0 : option string) (d : db) :
  forall e s uid node,
    assigned e s uid node d ->
    assigned e s uid node (snd (update_tos_flag s0 v0 e0 d)).
Proof.
  intros e s uid node. unfold update_tos_flag.
  destruct (sql_integer v0); [|auto].
  rewrite !assigned_stored. unfold stored_user; simpl.
  intros (u & H & Hu & Hn).
  rewrite filter_map_commute
    by (intros x; destruct (where_tos_flag s0 e0 x); reflexivity).
  destruct (filter (where_user e s) (user_nodes d)) as [|u0 l]; [discriminate|].
  injection H as ->. simpl.
  destruct (where_tos_flag s0 e0 u); eexists; split; try reflexivity; auto.
Qed.

(** X1.  The pair a user was given stays.  Once [get_node] answers
    [(uid, node, _)] for [(email, service)], it answers with the same [uid]
    and [node] after any calls of the methods of the class, in any order
    and with any arguments, whether they return or raise and whatever
    connectivity failures occur in between. *)
Theorem assignments_are_permanent
        (cs : list call) (w : world) (email service : string) (uid : Z)
        (node : string) :
  assigned email service uid node (tables w) ->
  assigned email service uid node (tables (perform_all cs w)).
Proof.
  revert email service uid node.
  apply (perform_all_keeps
           (fun d d' => forall e s uid node,
                assigned e s uid node d -> assigned e s uid node d')); auto.
  - intros s n v d e s0 uid node.
    apply assigned_same_users, INSERT_METADATA_user_nodes.
  - intros s n v d e s0 uid node. now apply assigned_same_users.
  - intros; now apply assigned_update_tos_flag.
  - intros; now apply assigned_INSERT.
  - apply keeps_get_best_node; auto.
    intros s n d e s0 uid node. now apply assigned_same_users.
Qed.

Lemma assignments_are_permanent_witness :
  let w := mk_world signed_db [None; Some (PoolExhausted "timeout"); None] in
  let cs := [Call_set_tos "sync" "http://tos/2";
             Call_allocate_node "u@x" "sync";
             Call_allocate_node "v@x" "sync";
             Call_set_tos_flag "sync" 1 None] in
  assigned "u@x" "sync" 1 "https://a.example" (tables w) /\
  assigned "u@x" "sync" 1 "https://a.example" (tables (perform_all cs w)).
Proof.
  intros w cs.
  assert (H : assigned "u@x" "sync" 1 "https://a.example" (tables w))
    by (eexists; reflexivity).
  split; [exact H|].
  exact (assignments_are_permanent cs w "u@x" "sync" 1 "https://a.example" H).
Defined.

(** ** The rows of [nodes] *)

Lemma node_step_refl (r : node_row) : node_step r r.
Proof. unfold node_step. repeat split; lia. Qed.


Lemma node_step_claim (r : node_row) : node_step r (claim r).
Proof. unfold node_step, claim; simpl. repeat split; lia. Qed.



Lemma Forall2_map_self {A} (R : A -> A -> Prop) (f : A -> A) (l : list A) :
  (forall x, R x (f x)) -> Forall2 R l (map f l).
Proof. intros H. induction l; simpl; constructor; auto. Qed.



Lemma where_node_true (service node : string) (r : node_row) :
  where_node service node r = true -> n_service r = service /\ n_node r = node.
Proof.
  unfold where_node. intros H. apply andb_true_iff in H as [E1 E2].
  now apply String.eqb_eq in E1, E2.
Qed.

Lemma claim_keys (service node : string) (l : list node_row) :
  map (fun r => (n_service r, n_node r))
      (map (fun r => if where_node service node r then claim r else r) l) =
  map (fun r => (n_service r, n_node r)) l.
Proof.
  rewrite map_map. apply map_ext. intros r.
  now destruct (where_node service node r).
Qed.

(** The update of [get_best_node], on the address of the selected row,
    keeps a table within capacity. *)
Lemma within_capacity_claim (service : string) (d : db) (one : node_row) :
  selected_node service d = Some one ->
  within_capacity (nodes d) ->
  within_capacity (nodes (snd (update_claim service (n_node one) d))).
Proof.
  intros Sel [U B]. apply selected_node_In in Sel as [I W].
  apply where_best_true in W as (Sv & Av & Cap & _).
  simpl. split.
  - unfold unique_nodes. now rewrite claim_keys.
  - intros r' Hr'. apply in_map_iff in Hr' as (r & <- & Hr).
    destruct (where_node service (n_node one) r) eqn:E; [|now apply B].
    apply where_node_true in E as [E1 E2].
    assert (r = one) by (apply (unique_nodes_key _ _ _ U Hr I); congruence).
    subst r. unfold claim; simpl. lia.
Qed.

Lemma keeps_within_capacity (service : string) :
  keeps (fun d d' => within_capacity (nodes d) -> within_capacity (nodes d'))
        (get_best_node service).
Proof.
  intros w r w1 H.
  apply get_best_node_cases in H as [[-> _]|(one & Sel & _ & ->)]; [auto|].
  now apply within_capacity_claim.
Qed.

(** X3.  Calls made one after the other never oversubscribe a node.  In
    a table with one row per [(service, node)] where every row has
    [available >= 0] and [current_load <= capacity], that is still so after
    any calls of the methods of the class, under any schedule of
    connectivity failures. *)
Theorem calls_stay_within_capacity (cs : list call) (w : world) :
  within_capacity (nodes (tables w)) ->
  within_capacity (nodes (tables (perform_all cs w))).
Proof.
  apply (perform_all_keeps
           (fun d d' => within_capacity (nodes d) -> within_capacity (nodes d')));
    auto.
  - intros s n v d. now rewrite INSERT_METADATA_nodes.
  - intros s v e d. now rewrite update_tos_flag_nodes.
  - intros s e n f d. now rewrite INSERT_nodes.
  - apply keeps_within_capacity.
Qed.

Lemma calls_stay_within_capacity_witness :
  let w := mk_world (mk_db [] [single_slot] [] 1) [None; None; Some (ConnectionLost "gone")] in
  let cs := [Call_allocate_node "u@x" "sync";
             Call_allocate_node "v@x" "sync";
             Call_get_best_node "sync"] in
  within_capacity (nodes (tables w)) /\
  within_capacity (nodes (tables (perform_all cs w))).
Proof.
  intros w cs.
  assert (H : within_capacity (nodes (tables w))).
  { split.
    - unfold unique_nodes; simpl. constructor; [intros []|constructor].
    - intros r [<-|[]]; simpl; lia. }
  split; [exact H|].
  exact (calls_stay_within_capacity cs w H).
Defined.

(** ** Metadata *)

Lemma has_metadata_stored (service name : string) (d : db) :
  has_metadata service name d <->
  exists v, stored_metadata service name d = Some v.
Proof.
  unfold has_metadata. setoid_rewrite get_metadata_online. split.
  - intros (v & H). injection H as H. eauto.
  - intros (v & ->). eauto.
Qed.

Lemma has_metadata_same (d d' : db) :
  metadata d' = metadata d ->
  forall s n, has_metadata s n d -> has_metadata s n d'.
Proof.
  intros E s n. rewrite !has_metadata_stored. unfold stored_metadata. now rewrite E.
Qed.

Lemma has_metadata_INSERT_METADATA (s0 n0 v0 : string) (d : db) :
  forall s n, has_metadata s n d ->
              has_metadata s n (snd (_INSERT_METADATA s0 n0 v0 d)).
Proof.
  intros s n. unfold _INSERT_METADATA. destruct (existsb _ _); simpl; [auto|].
  rewrite !has_metadata_stored. unfold stored_metadata; simpl.
  intros (v & H). exists v. rewrite filter_app.
  destruct (hd_error (filter _ (metadata d))) as [r|] eqn:E; [|discriminate].
  now rewrite (hd_error_app_Some _ _ _ E).
Qed.

Lemma has_metadata_UPDATE_METADATA (s0 n0 v0 : string) (d : db) :
  forall s n, has_metadata s n d ->
              has_metadata s n (snd (_UPDATE_METADATA s0 n0 v0 d)).
Proof.
  intros s n. rewrite !has_metadata_stored. unfold stored_metadata; simpl.
  intros (v & H).
  rewrite filter_map_commute
    by (intros x; destruct (where_metadata s0 n0 x); reflexivity).
  destruct (filter _ (metadata d)) as [|r l]; [discriminate|]. simpl. eauto.
Qed.

(** X4.  A metadata key, once set, stays set.  If [get_metadata] finds a
    value for [(service, name)], it still finds one after any calls of the
    methods of the class, under any schedule of connectivity failures: the
    class has no call that removes a key. *)
Theorem metadata_keys_persist
        (cs : list call) (w : world) (service name : string) :
  has_metadata service name (tables w) ->
  has_metadata service name (tables (perform_all cs w)).
Proof.
  revert service name.
  apply (perform_all_keeps
           (fun d d' => forall s n, has_metadata s n d -> has_metadata s n d'));
    auto.
  - intros; now apply has_metadata_INSERT_METADATA.
  - intros; now apply has_metadata_UPDATE_METADATA.
  - intros s v e d s1 n1. apply has_metadata_same, update_tos_flag_metadata.
  - intros s e n f d s1 n1. apply has_metadata_same, INSERT_metadata.
  - apply keeps_get_best_node; auto.
    intros s n d s1 n1. now apply has_metadata_same.
Qed.

Lemma metadata_keys_persist_witness :
  let w := mk_world sync_db [None; Some (ConnectionLost "gone")] in
  let cs := [Call_set_tos "sync" "http://tos/2";
             Call_set_metadata "sync" "terms-of-service" "http://tos/3";
             Call_allocate_node "u@x" "sync"] in
  has_metadata "sync" "terms-of-service" (tables w) /\
  has_metadata "sync" "terms-of-service" (tables (perform_all cs w)).
Proof.
  intros w cs.
  assert (H : has_metadata "sync" "terms-of-service" (tables w))
    by (eexists; reflexivity).
  split; [exact H|].
  exact (metadata_keys_persist cs w "sync" "terms-of-service" H).
Defined.

(** ** What each method leaves alone *)

(** X5.  Each method writes only its own tables, whatever the schedule of
    connectivity failures and whether it returns or raises.  [get_node],
    [get_metadata] and [get_metadata_all] leave the whole database as it
    is; [set_metadata] and [update_metadata] leave [user_nodes] and [nodes];
    [set_tos_flag] leaves [nodes] and [metadata]; [set_tos] leaves [nodes];
    [get_best_node] leaves [user_nodes] and [metadata]; [allocate_node]
    leaves [metadata]. *)
Theorem methods_write_their_own_tables :
  (forall e s, keeps (fun d d' => d' = d) (get_node e s)) /\
  (forall s n, keeps (fun d d' => d' = d) (get_metadata s n)) /\
  (forall s, keeps (fun d d' => d' = d) (get_metadata_all s)) /\
  (forall s n v,
      keeps (fun d d' => user_nodes d' = user_nodes d /\ nodes d' = nodes d)
            (set_metadata s n v)) /\
  (forall s n v,
      keeps (fun d d' => user_nodes d' = user_nodes d /\ nodes d' = nodes d)
            (update_metadata s n v)) /\
  (forall s v e,
      keeps (fun d d' => nodes d' = nodes d /\ metadata d' = metadata d)
            (set_tos_flag s v e)) /\
  (forall s v, keeps (fun d d' => nodes d' = nodes d) (set_tos s v)) /\
  (forall s,
      keeps (fun d d' => user_nodes d' = user_nodes d /\ metadata d' = metadata d)
            (get_best_node s)) /\
  (forall e s, keeps (fun d d' => metadata d' = metadata d) (allocate_node e s)).
Proof.
  assert (G : forall s,
             keeps (fun d d' => user_nodes d' = user_nodes d /\
                                metadata d' = metadata d) (get_best_node s)).
  { apply keeps_get_best_node; [auto|intuition congruence|auto]. }
  repeat apply conj.
  - intros; apply keeps_get_node; congruence.
  - intros; apply keeps_get_metadata; congruence.
  - intros; apply keeps_get_metadata_all; congruence.
  - intros; apply keeps_set_metadata; [auto|intuition congruence|].
    intros; split;
      [apply INSERT_METADATA_user_nodes|apply INSERT_METADATA_nodes].
  - intros; apply keeps_update_metadata; [auto|intuition congruence|auto].
  - intros; apply keeps_set_tos_flag; [auto|intuition congruence|].
    intros; split; [apply update_tos_flag_nodes|apply update_tos_flag_metadata].
  - intros; apply keeps_set_tos; [auto|congruence|auto|].
    intros; apply update_tos_flag_nodes.
  - exact G.
  - intros; apply keeps_allocate_node; [auto|congruence| |].
    + intros; apply INSERT_metadata.
    + intros s0 w r w1 H. now apply (G s0 w r w1).
Qed.

(** ** The order of the select *)

Lemma ratio_leb_refl (a : node_row) : ratio_leb a a = true.
Proof.
  unfold ratio_leb. destruct (ratio a); [|reflexivity]. apply Z.leb_refl.
Qed.

Lemma ratio_leb_total (a b : node_row) :
  ratio_leb a b = false -> ratio_leb b a = true.
Proof.
  unfold ratio_leb. destruct (ratio a) as [x|], (ratio b) as [y|];
    try discriminate; try reflexivity.
  intros H. apply Z.leb_gt in H. apply Z.leb_le. lia.
Qed.

Lemma ratio_leb_trans (a b c : node_row) :
  ratio_leb a b = true -> ratio_leb b c = true -> ratio_leb a c = true.
Proof.
  unfold ratio_leb.
  destruct (ratio a) as [x|], (ratio b) as [y|], (ratio c) as [z|];
    try discriminate; try reflexivity.
  rewrite !Z.leb_le. lia.
Qed.

(** The first row of the ordered rows is below every row. *)
Lemma order_by_head_least (l : list node_row) (h : node_row) (t : list node_row) :
  order_by l = h :: t -> forall x, In x l -> ratio_leb h x = true.
Proof.
  revert h t. induction l as [|a l IH]; simpl; intros h t E x Hx; [contradiction|].
  destruct (order_by l) as [|h' t'] eqn:O.
  - assert (l = []).
    { destruct l as [|b l']; [reflexivity|].
      assert (I : In b (order_by (b :: l'))) by (apply order_by_In; now left).
      rewrite O in I. contradiction. }
    subst l. simpl in E. injection E as <- _.
    destruct Hx as [<-|[]]. apply ratio_leb_refl.
  - simpl in E. destruct (ratio_leb a h') eqn:L; injection E as <- _.
    + destruct Hx as [<-|Hx]; [apply ratio_leb_refl|].
      eapply ratio_leb_trans; [exact L|]. eapply IH; eauto.
    + destruct Hx as [<-|Hx]; [now apply ratio_leb_total|].
      eapply IH; eauto.
Qed.

(** Rows of equal key stay in the order of storage. *)
Lemma order_by_tied (l : list node_row) :
  (forall x y, In x l -> In y l -> ratio_leb x y = true) -> order_by l = l.
Proof.
  induction l as [|a l IH]; intros H; [reflexivity|]. simpl.
  rewrite IH by (intros x y Hx Hy; apply H; now right).
  destruct l as [|y l']; [reflexivity|]. simpl.
  now rewrite (H a y (or_introl eq_refl) (or_intror (or_introl eq_refl))).
Qed.

(** A row that passes the [where] with a load that is not negative has
    the key 0. *)
Lemma ratio_eligible (service : string) (r : node_row) :
  where_best service r = true -> 0 <= n_current_load r -> ratio r = Some 0.
Proof.
  intros W L. apply where_best_true in W as (_ & _ & C & _).
  unfold ratio. destruct (Z.eqb_spec (n_capacity r) 0) as [E|E]; [lia|].
  f_equal. apply Z.quot_small. lia.
Qed.

(** X7.  What [get_best_node] orders by.  Whatever the schedule, when
    [get_best_node] returns [node], the table it ran on has a row of that
    address that passes the [where], and no row that passes it has a
    smaller integer quotient of [current_load] by [capacity].  When no row
    that passes the [where] has a negative load, all these quotients are 0,
    and the row is the first, in the order of storage, of those that pass
    the [where], whatever their loads. *)
Theorem get_best_node_returns_first_of_least_quotient
        (service node : string) (w w1 : world) :
  get_best_node service w = (Ok node, w1) ->
  exists one,
    In one (nodes (tables w)) /\
    where_best service one = true /\
    n_node one = node /\
    (forall r, In r (nodes (tables w)) -> where_best service r = true ->
               n_capacity one = 0 \/
               (n_capacity r <> 0 /\
                Z.quot (n_current_load one) (n_capacity one) <=
                Z.quot (n_current_load r) (n_capacity r))) /\
    ((forall r, In r (nodes (tables w)) -> where_best service r = true ->
                0 <= n_current_load r) ->
     hd_error (filter (where_best service) (nodes (tables w))) = Some one).
Proof.
  intros H. apply get_best_node_Ok_inv in H as (one & Sel & -> & _).
  exists one. destruct (selected_node_In _ _ _ Sel) as [I W].
  unfold selected_node in Sel. rewrite hd_error_limit_1 in Sel.
  repeat split; auto.
  - intros r Hr Wr.
    destruct (order_by (filter (where_best service) (nodes (tables w))))
      as [|h t] eqn:O; [discriminate|].
    injection Sel as ->.
    assert (L : ratio_leb one r = true)
      by (apply (order_by_head_least _ _ _ O), filter_In; auto).
    unfold ratio_leb, ratio in L.
    destruct (Z.eqb_spec (n_capacity one) 0) as [E1|E1]; [now left|].
    destruct (Z.eqb_spec (n_capacity r) 0) as [E2|E2]; [discriminate|].
    right. split; [assumption|]. now apply Z.leb_le.
  - intros N. rewrite order_by_tied in Sel; [exact Sel|].
    intros x y Hx Hy. apply filter_In in Hx as [Ix Wx], Hy as [Iy Wy].
    unfold ratio_leb.
    rewrite (ratio_eligible _ _ Wx (N x Ix Wx)),
            (ratio_eligible _ _ Wy (N y Iy Wy)).
    reflexivity.
Qed.

Lemma get_best_node_returns_first_of_least_quotient_witness :
  let w := mk_world (mk_db [] sync_nodes [] 1) [None; None] in
  let w1 := online (mk_db [] [mk_node "sync" "https://b.example" 4 9 10 0 0;
                              mk_node "sync" "https://a.example" 5 2 10 0 0] [] 1) in
  get_best_node "sync" w = (Ok "https://b.example", w1) /\
  exists one,
    In one (nodes (tables w)) /\
    where_best "sync" one = true /\
    n_node one = "https://b.example" /\
    (forall r, In r (nodes (tables w)) -> where_best "sync" r = true ->
               n_capacity one = 0 \/
               (n_capacity r <> 0 /\
                Z.quot (n_current_load one) (n_capacity one) <=
                Z.quot (n_current_load r) (n_capacity r))) /\
    ((forall r, In r (nodes (tables w)) -> where_best "sync" r = true ->
                0 <= n_current_load r) ->
     hd_error (filter (where_best "sync") (nodes (tables w))) = Some one).
Proof.
  intros w w1.
  assert (H : get_best_node "sync" w = (Ok "https://b.example", w1)) by reflexivity.
  split; [exact H|].
  exact (get_best_node_returns_first_of_least_quotient
           "sync" "https://b.example" w w1 H).
Defined.

(** ** Allocation, step by step *)

(** A call the schedule lets through runs the statement. *)
Lemma safe_execute_through {R} (q : statement R) (d d' : db)
      (res : ResultProxy R) (rest : list (option fault)) :
  q d = (Ok res, d') ->
  _safe_execute q (mk_world d (None :: rest)) = (Ok res, mk_world d' rest).
Proof.
  intros E. unfold _safe_execute, engine_execute; simpl. now rewrite E.
Qed.

Lemma get_metadata_through (service name : string) (d : db)
      (rest : list (option fault)) :
  get_metadata service name (mk_world d (None :: rest)) =
    (Ok (stored_metadata service name d), mk_world d rest).
Proof.
  unfold get_metadata, bind.
  rewrite (safe_execute_through (select_metadata service (Some name)) d d _ _ eq_refl).
  unfold stored_metadata, fetchone; simpl. now destruct (hd_error _).
Qed.

Lemma get_node_through_unassigned (email service : string) (d : db)
      (rest : list (option fault)) :
  (forall r, In r (user_nodes d) -> where_user email service r = false) ->
  get_node email service (mk_world d (None :: None :: rest)) =
    (Ok (None, None, stored_metadata service "terms-of-service" d),
     mk_world d rest).
Proof.
  intros A. unfold get_node, bind.
  rewrite (safe_execute_through (_GET email service) d d _ _ eq_refl).
  unfold fetchone; simpl. rewrite (filter_none _ _ A). simpl.
  now rewrite get_metadata_through.
Qed.

Lemma get_best_node_through (service : string) (d : db) (one : node_row)
      (rest : list (option fault)) :
  selected_node service d = Some one ->
  get_best_node service (mk_world d (None :: None :: rest)) =
    (Ok (n_node one), mk_world (snd (update_claim service (n_node one) d)) rest).
Proof.
  intros Sel. unfold selected_node, limit in Sel.
  unfold get_best_node, get_best_node_select, get_best_node_update, bind,
    _safe_execute, engine_execute, fetchone, limit; simpl.
  destruct (order_by (filter (where_best service) (nodes d))) as [|h t];
    [discriminate|].
  simpl in *. injection Sel as ->. reflexivity.
Qed.

(** X8.  A failed insert leaves the slot claimed.  For a pair without a
    row, when the engine answers the four statements that precede the
    insert of [allocate_node] and fails on the insert, [allocate_node]
    raises the [BackendError] of that failure, no row is added to
    [user_nodes], and the table of nodes is the one a successful
    [get_best_node] leaves: the slot is taken although nobody was
    assigned. *)
Theorem allocate_node_failed_insert_keeps_claim
        (email service node : string) (d d1 : db) (f : fault) :
  (forall r, In r (user_nodes d) -> un_email r = email -> un_service r <> service) ->
  get_best_node service (online d) = (Ok node, online d1) ->
  allocate_node email service (mk_world d [None; None; None; None; Some f]) =
    (Raise (BackendError (str (exn_of_fault f))), online d1) /\
  user_nodes d1 = user_nodes d /\
  Forall2 node_step (nodes d) (nodes d1) /\
  total_load (nodes d) < total_load (nodes d1).
Proof.
  intros Hu Hb.
  pose proof (where_user_absent _ _ _ Hu) as A.
  rewrite get_best_node_online in Hb.
  destruct (selected_node service d) as [one|] eqn:Sel; [|discriminate].
  injection Hb as <- <-.
  split; [|split; [reflexivity|split]].
  - unfold allocate_node, bind.
    rewrite (get_node_through_unassigned _ _ _ _ A).
    rewrite (get_best_node_through _ _ _ _ Sel).
    now rewrite (safe_execute_fault
                   (_INSERT service email (n_node one) 1)
                   (mk_world (snd (update_claim service (n_node one) d)) [Some f])
                   f [] eq_refl).
  - simpl. apply Forall2_map_self. intros x.
    destruct (where_node service (n_node one) x);
      [apply node_step_claim|apply node_step_refl].
  - apply selected_node_In in Sel as [I W].
    apply where_best_true in W as (Sv & _).
    simpl. clear - I Sv. induction (nodes d) as [|a l IH]; [contradiction|].
    assert (Mono : forall l', total_load l' <=
              total_load (map (fun r => if where_node service (n_node one) r
                                        then claim r else r) l')).
    { induction l' as [|b l' IH']; simpl; [lia|].
      destruct (where_node service (n_node one) b); simpl; lia. }
    simpl. destruct I as [->|I].
    + unfold where_node at 1. rewrite Sv, !String.eqb_refl. simpl.
      specialize (Mono l). lia.
    + specialize (IH I).
      destruct (where_node service (n_node one) a); simpl; lia.
Qed.

Lemma allocate_node_failed_insert_keeps_claim_witness :
  let d1 := mk_db [] [mk_node "sync" "https://b.example" 4 9 10 0 0;
                      mk_node "sync" "https://a.example" 5 2 10 0 0]
                  [mk_metadata "sync" "terms-of-service" "http://tos/1"] 1 in
  let f := ConnectionLost "server has gone away" in
  (forall r, In r (user_nodes sync_db) -> un_email r = "u@x" -> un_service r <> "sync") /\
  get_best_node "sync" (online sync_db) = (Ok "https://b.example", online d1) /\
  allocate_node "u@x" "sync" (mk_world sync_db [None; None; None; None; Some f]) =
    (Raise (BackendError (str (exn_of_fault f))), online d1) /\
  user_nodes d1 = user_nodes sync_db /\
  Forall2 node_step (nodes sync_db) (nodes d1) /\
  total_load (nodes sync_db) < total_load (nodes d1).
Proof.
  intros d1 f.
  assert (H1 : forall r, In r (user_nodes sync_db) ->
                         un_email r = "u@x" -> un_service r <> "sync")
    by (intros r []).
  assert (H2 : get_best_node "sync" (online sync_db) =
               (Ok "https://b.example", online d1)) by reflexivity.
  split; [exact H1|]. split; [exact H2|].
  exact (allocate_node_failed_insert_keeps_claim
           "u@x" "sync" "https://b.example" sync_db d1 f H1 H2).
Defined.

(** ** Slots run out *)

Lemma where_best_claimed_last_slot (service : string) (r : node_row) :
  n_available r = 1 -> where_best service (claim r) = false.
Proof.
  intros E. unfold where_best, claim; simpl. rewrite E. simpl.
  now rewrite andb_false_r.
Qed.

(** X9.  The last slot is given once.  With the engine reachable, when
    the only row of the service that passes the [where] of [get_best_node]
    has [available = 1] and no other row bears its key, a first
    [get_best_node] returns its address and a second one raises
    [BackendError('unable to get a node')] and leaves the table as the first
    one left it. *)
Theorem get_best_node_last_slot (service : string) (one : node_row) (d : db) :
  filter (where_best service) (nodes d) = [one] ->
  n_available one = 1 ->
  own_address one (nodes d) ->
  exists d1,
    get_best_node service (online d) = (Ok (n_node one), online d1) /\
    get_best_node service (online d1) =
      (Raise (BackendError "unable to get a node"), online d1).
Proof.
  intros F Av Own.
  assert (Sel : selected_node service d = Some one)
    by (unfold selected_node; now rewrite F).
  exists (snd (update_claim service (n_node one) d)). split.
  - rewrite get_best_node_online. now rewrite Sel.
  - rewrite get_best_node_online. rewrite selected_node_None; [reflexivity|].
    simpl. intros r' Hr'. apply in_map_iff in Hr' as (r & <- & Hr).
    destruct (where_node service (n_node one) r) eqn:E.
    + apply where_node_true in E as [E1 E2].
      destruct (selected_node_In _ _ _ Sel) as [_ W].
      apply where_best_true in W as (Sv & _).
      assert (r = one) by (apply Own; congruence). subst r.
      now apply where_best_claimed_last_slot.
    + destruct (where_best service r) eqn:W; [|reflexivity].
      assert (I : In r (filter (where_best service) (nodes d)))
        by (apply filter_In; auto).
      rewrite F in I. destruct I as [<-|[]].
      apply where_best_true in W as (Sv & _).
      unfold where_node in E. now rewrite Sv, !String.eqb_refl in E.
Qed.

Lemma get_best_node_last_slot_witness :
  let d := mk_db [] [single_slot; mk_node "other" "https://a.example" 7 0 9 0 0] [] 1 in
  filter (where_best "sync") (nodes d) = [single_slot] /\
  n_available single_slot = 1 /\
  own_address single_slot (nodes d) /\
  exists d1,
    get_best_node "sync" (online d) = (Ok (n_node single_slot), online d1) /\
    get_best_node "sync" (online d1) =
      (Raise (BackendError "unable to get a node"), online d1).
Proof.
  intros d.
  assert (Own : own_address single_slot (nodes d)).
  { intros x [<-|[<-|[]]] E _; [reflexivity|discriminate E]. }
  split; [reflexivity|]. split; [reflexivity|]. split; [exact Own|].
  exact (get_best_node_last_slot "sync" single_slot d eq_refl eq_refl Own).
Defined.

(** ** One slot at a time *)

Lemma totals_claim_one (service : string) (one : node_row) (l : list node_row) :
  unique_nodes l -> In one l -> n_service one = service ->
  total_load (map (fun r => if where_node service (n_node one) r
                            then claim r else r) l) = total_load l + 1 /\
  total_available (map (fun r => if where_node service (n_node one) r
                                 then claim r else r) l) = total_available l - 1.
Proof.
  intros U I Sv. revert U I. induction l as [|a l IH]; [contradiction|].
  intros U I.
  assert (Ul : unique_nodes l) by (unfold unique_nodes in *; now inversion U).
  destruct I as [->|I].
  - assert (N : forall r, In r l -> where_node service (n_node one) r = false).
    { intros r Hr. destruct (where_node service (n_node one) r) eqn:E;
        [|reflexivity].
      apply where_node_true in E as [E1 E2].
      assert (r = one)
        by (apply (unique_nodes_key (one :: l) r one U);
            [now right|now left|congruence|congruence]).
      subst r. unfold unique_nodes in U. inversion U as [|? ? Nin _]; subst.
      elim Nin. apply in_map_iff. now exists one. }
    simpl. rewrite (map_if_none _ _ _ N).
    unfold where_node. rewrite Sv, !String.eqb_refl. simpl. lia.
  - destruct (IH Ul I) as [L A]. simpl.
    destruct (where_node service (n_node one) a) eqn:E.
    + apply where_node_true in E as [E1 E2].
      assert (a = one)
        by (apply (unique_nodes_key (a :: l) a one U);
            [now left|now right|congruence|congruence]).
      subst a. unfold unique_nodes in U. inversion U as [|? ? Nin _]; subst.
      elim Nin. apply in_map_iff. now exists one.
    + simpl. lia.
Qed.

(** X10.  A successful [get_best_node] takes exactly one slot.  Whatever
    the schedule, on a table with one row per [(service, node)], when
    [get_best_node] returns, the loads of the table add up to one more than
    before and the free slots to one less. *)
Theorem get_best_node_takes_one_slot (service node : string) (w w1 : world) :
  unique_nodes (nodes (tables w)) ->
  get_best_node service w = (Ok node, w1) ->
  total_load (nodes (tables w1)) = total_load (nodes (tables w)) + 1 /\
  total_available (nodes (tables w1)) = total_available (nodes (tables w)) - 1.
Proof.
  intros U H. apply get_best_node_Ok_inv in H as (one & Sel & -> & ->).
  apply selected_node_In in Sel as [I W].
  apply where_best_true in W as (Sv & _).
  simpl. now apply totals_claim_one.
Qed.

Lemma get_best_node_takes_one_slot_witness :
  let w := mk_world (mk_db [] sync_nodes [] 1) [None; None] in
  let w1 := online (mk_db [] [mk_node "sync" "https://b.example" 4 9 10 0 0;
                              mk_node "sync" "https://a.example" 5 2 10 0 0] [] 1) in
  unique_nodes (nodes (tables w)) /\
  get_best_node "sync" w = (Ok "https://b.example", w1) /\
  total_load (nodes (tables w1)) = total_load (nodes (tables w)) + 1 /\
  total_available (nodes (tables w1)) = total_available (nodes (tables w)) - 1.
Proof.
  intros w w1.
  assert (U : unique_nodes (nodes (tables w))).
  { unfold unique_nodes; simpl.
    repeat (constructor; [simpl; intuition discriminate|]). constructor. }
  assert (H : get_best_node "sync" w = (Ok "https://b.example", w1)) by reflexivity.
  split; [exact U|]. split; [exact H|].
  exact (get_best_node_takes_one_slot "sync" "https://b.example" w w1 U H).
Defined.

(** ** The flag and what [get_node] shows *)

Lemma filter_map_fixed {A} (p : A -> bool) (g : A -> A) (l : list A) :
  (forall x, p (g x) = p x) -> (forall x, p x = true -> g x = x) ->
  filter p (map g l) = filter p l.
Proof.
  intros H1 H2. induction l as [|a l IH]; simpl; [reflexivity|].
  rewrite H1. destruct (p a) eqn:E; [|exact IH].
  now rewrite (H2 a E), IH.
Qed.

Lemma set_tos_flag_online (service : string) (value : Z) (email : option string)
      (d : db) :
  sql_integer value = true ->
  set_tos_flag service value email (online d) =
    (Ok tt,
     online (set_user_nodes
               (map (fun r => if where_tos_flag service email r
                              then mk_user_node (un_uid r) (un_service r)
                                                (un_email r) (un_node r) value
                              else r)
                    (user_nodes d)) d)).
Proof.
  intros V. unfold set_tos_flag, bind, _safe_execute.
  rewrite engine_execute_online. unfold update_tos_flag. now rewrite V.
Qed.

Lemma set_tos_flag_online_refused (service : string) (value : Z)
      (email : option string) (d : db) :
  sql_integer value = false ->
  exists m,
    set_tos_flag service value email (online d) = (Raise (OverflowError m), online d).
Proof.
  intros V. eexists. unfold set_tos_flag, bind, _safe_execute.
  rewrite engine_execute_online. unfold update_tos_flag. rewrite V. reflexivity.
Qed.

Lemma stored_metadata_first_row (service name : string) (d : db) :
  stored_metadata service name d =
  option_map md_value (hd_error (filter (where_metadata service name) (metadata d))).
Proof.
  unfold stored_metadata. do 2 f_equal. apply filter_ext.
  intros r. unfold where_metadata. apply andb_comm.
Qed.

(** X11.  The flag decides what [get_node] shows.  With the engine
    reachable, for an assigned user and a call [set_tos_flag(service, value,
    email)], or [set_tos_flag(service, value)] for all the users of the
    service: when [value] is an integer the engine stores, the
    [get_node(email, service)] that follows answers the same [uid] and
    [node] as before, with the value of the first ["terms-of-service"] row of
    the service when [value] is 1 and with [None] for any other [value];
    when [value] is outside that range, [set_tos_flag] raises
    [OverflowError] and the database is as it was. *)
Theorem set_tos_flag_then_get_node
        (email service : string) (value : Z) (target : option string)
        (d : db) (u : user_node) (rest : list user_node) :
  filter (where_user email service) (user_nodes d) = u :: rest ->
  target = None \/ target = Some email ->
  (sql_integer value = true ->
   exists d1,
     (set_tos_flag service value target ;;; get_node email service) (online d) =
       (Ok (Some (un_uid u), Some (un_node u),
            if value =? 1
            then option_map md_value
                   (hd_error (filter (where_metadata service "terms-of-service")
                                     (metadata d)))
            else None),
        online d1)) /\
  (sql_integer value = false ->
   exists m,
     set_tos_flag service value target (online d) =
       (Raise (OverflowError m), online d)).
Proof.
  intros F Tg. split; [|apply set_tos_flag_online_refused].
  intros V.
  assert (W : where_user email service u = true).
  { assert (I : In u (filter (where_user email service) (user_nodes d)))
      by (rewrite F; now left).
    now apply filter_In in I. }
  destruct (where_user_true _ _ _ W) as [Em Sv].
  eexists. unfold bind. rewrite (set_tos_flag_online _ _ _ _ V), get_node_online.
  unfold node_of, stored_user; simpl.
  rewrite filter_map_commute
    by (intros x; destruct (where_tos_flag service target x); reflexivity).
  rewrite F. simpl.
  assert (X : where_tos_flag service target u = true).
  { unfold where_tos_flag. rewrite Sv, String.eqb_refl.
    destruct Tg as [-> | ->]; [reflexivity|]. now rewrite Em, String.eqb_refl. }
  rewrite X. simpl.
  rewrite <- stored_metadata_first_row. reflexivity.
Qed.

Lemma set_tos_flag_then_get_node_witness :
  let u := mk_user_node 1 "sync" "u@x" "https://a.example" 0 in
  filter (where_user "u@x" "sync") (user_nodes signed_db) = [u] /\
  (Some "u@x" = None \/ Some "u@x" = Some "u@x") /\
  (set_tos_flag "sync" 1 (Some "u@x") ;;; get_node "u@x" "sync") (online signed_db) =
    (Ok (Some 1, Some "https://a.example", Some "http://tos/1"),
     online (mk_db [mk_user_node 1 "sync" "u@x" "https://a.example" 1]
                   (nodes signed_db) (metadata signed_db) 2)) /\
  (set_tos_flag "sync" 2 (Some "u@x") ;;; get_node "u@x" "sync") (online signed_db) =
    (Ok (Some 1, Some "https://a.example", None),
     online (mk_db [mk_user_node 1 "sync" "u@x" "https://a.example" 2]
                   (nodes signed_db) (metadata signed_db) 2)) /\
  set_tos_flag "sync" 9223372036854775808 (Some "u@x") (online signed_db) =
    (Raise (OverflowError "Python int too large to convert to SQLite INTEGER"),
     online signed_db) /\
  (sql_integer 1 = true ->
   exists d1,
     (set_tos_flag "sync" 1 (Some "u@x") ;;; get_node "u@x" "sync") (online signed_db) =
       (Ok (Some (un_uid u), Some (un_node u),
            if 1 =? 1
            then option_map md_value
                   (hd_error (filter (where_metadata "sync" "terms-of-service")
                                     (metadata signed_db)))
            else None),
        online d1)) /\
  (sql_integer 1 = false ->
   exists m,
     set_tos_flag "sync" 1 (Some "u@x") (online signed_db) =
       (Raise (OverflowError m), online signed_db)).
Proof.
  intros u.
  split; [reflexivity|]. split; [right; reflexivity|].
  split; [reflexivity|]. split; [reflexivity|]. split; [reflexivity|].
  exact (set_tos_flag_then_get_node "u@x" "sync" 1 (Some "u@x") signed_db u []
           eq_refl (or_intror eq_refl)).
Defined.

(** X12.  [set_tos_flag] reaches only the users it names.  With the
    engine reachable, [get_node(email', service')] answers the same before
    and after [set_tos_flag(service, value, target)] when [service'] is
    another service, or when the call names an email and [email'] is
    another one; the call returns normally when [value] is an integer the
    engine stores. *)
Theorem set_tos_flag_leaves_others
        (email' service' service : string) (value : Z) (target : option string)
        (d : db) :
  service' <> service \/ (exists e, target = Some e /\ email' <> e) ->
  exists r d1,
    set_tos_flag service value target (online d) = (r, online d1) /\
    (sql_integer value = true -> r = Ok tt) /\
    fst (get_node email' service' (online d1)) =
    fst (get_node email' service' (online d)).
Proof.
  intros H. destruct (sql_integer value) eqn:V.
  - do 2 eexists. split; [now apply set_tos_flag_online|].
    split; [reflexivity|].
    rewrite !get_node_online. simpl.
    unfold node_of, stored_user, stored_metadata; simpl.
    rewrite filter_map_fixed; [reflexivity| |].
    + intros x. destruct (where_tos_flag service target x); reflexivity.
    + intros x W. apply where_user_true in W as [Em Sv].
      destruct (where_tos_flag service target x) eqn:E; [|reflexivity].
      exfalso. unfold where_tos_flag in E. apply andb_true_iff in E as [E1 E2].
      apply String.eqb_eq in E1.
      destruct H as [H|(e & -> & H)]; [congruence|].
      apply String.eqb_eq in E2. congruence.
  - destruct (set_tos_flag_online_refused service value target d V) as [m E].
    do 2 eexists. split; [exact E|]. split; [discriminate|reflexivity].
Qed.

Lemma set_tos_flag_leaves_others_witness :
  let d := mk_db [mk_user_node 1 "sync" "u@x" "https://a.example" 1;
                  mk_user_node 2 "sync" "v@x" "https://a.example" 1] [] [] 3 in
  ("sync" <> "sync" \/ (exists e, Some "u@x" = Some e /\ "v@x" <> e)) /\
  exists r d1,
    set_tos_flag "sync" 0 (Some "u@x") (online d) = (r, online d1) /\
    (sql_integer 0 = true -> r = Ok tt) /\
    fst (get_node "v@x" "sync" (online d1)) = fst (get_node "v@x" "sync" (online d)).
Proof.
  intros d.
  assert (H : "sync" <> "sync" \/ (exists e, Some "u@x" = Some e /\ "v@x" <> e)).
  { right. exists "u@x". split; [reflexivity|discriminate]. }
  split; [exact H|].
  exact (set_tos_flag_leaves_others "v@x" "sync" "sync" 0 (Some "u@x") d H).
Defined.

(** X13.  The unknown user.  With the engine reachable, [get_node] for a
    pair without a row answers [(None, None, tos)], with [tos] what
    [get_metadata] returns for the terms of service of the service, and then
    [allocate_node] does not raise ["Node already assigned"]: it either
    returns or raises ['unable to get a node']. *)
Theorem get_node_unknown_user (email service : string) (d : db) (tos : option string) :
  (forall r, In r (user_nodes d) -> un_email r = email -> un_service r <> service) ->
  get_metadata service "terms-of-service" (online d) = (Ok tos, online d) ->
  get_node email service (online d) = (Ok (None, None, tos), online d) /\
  ((exists uid node d1,
       allocate_node email service (online d) = (Ok (uid, node), online d1)) \/
   allocate_node email service (online d) =
     (Raise (BackendError "unable to get a node"), online d)).
Proof.
  intros H G. pose proof (where_user_absent _ _ _ H) as A.
  rewrite get_metadata_online in G. injection G as <-.
  split.
  - rewrite get_node_online. unfold node_of.
    now rewrite (stored_user_absent _ _ _ A).
  - destruct (selected_node service d) as [one|] eqn:Sel.
    + left. do 3 eexists. exact (allocate_node_online_fresh _ _ _ _ A Sel).
    + right. unfold allocate_node, bind. rewrite get_node_online.
      unfold node_of. rewrite (stored_user_absent _ _ _ A).
      rewrite get_best_node_online, Sel. reflexivity.
Qed.

Lemma get_node_unknown_user_witness :
  (forall r, In r (user_nodes sync_db) -> un_email r = "u@x" -> un_service r <> "sync") /\
  get_metadata "sync" "terms-of-service" (online sync_db) =
    (Ok (Some "http://tos/1"), online sync_db) /\
  get_node "u@x" "sync" (online sync_db) =
    (Ok (None, None, Some "http://tos/1"), online sync_db) /\
  ((exists uid node d1,
       allocate_node "u@x" "sync" (online sync_db) = (Ok (uid, node), online d1)) \/
   allocate_node "u@x" "sync" (online sync_db) =
     (Raise (BackendError "unable to get a node"), online sync_db)).
Proof.
  assert (H : forall r, In r (user_nodes sync_db) ->
                        un_email r = "u@x" -> un_service r <> "sync")
    by (intros r []).
  split; [exact H|]. split; [reflexivity|].
  exact (get_node_unknown_user "u@x" "sync" sync_db (Some "http://tos/1") H eq_refl).
Defined.

(** ** One key at a time *)

Lemma key_true (service name : string) (r : metadata_row) :
  (md_service r =? service)%string && (md_name r =? name)%string = true ->
  md_service r = service /\ md_name r = name.
Proof.
  intros H. apply andb_true_iff in H as [E1 E2].
  now apply String.eqb_eq in E1, E2.
Qed.

Lemma where_metadata_key (service name : string) (r : metadata_row) :
  where_metadata service name r =
  (md_service r =? service)%string && (md_name r =? name)%string.
Proof. unfold where_metadata. apply andb_comm. Qed.

(** X14.  [set_metadata] writes its key and no other.  With the engine
    reachable, after [set_metadata(service, name, value)] on a key without a
    row, [get_metadata(service, name)] returns [value], and [get_metadata]
    of every other key returns what it returned before. *)
Theorem set_metadata_writes_one_key (service name value : string) (d : db) :
  (forall r, In r (metadata d) -> md_service r = service -> md_name r <> name) ->
  exists d1,
    set_metadata service name value (online d) = (Ok tt, online d1) /\
    get_metadata service name (online d1) = (Ok (Some value), online d1) /\
    forall s' n', s' <> service \/ n' <> name ->
      fst (get_metadata s' n' (online d1)) = fst (get_metadata s' n' (online d)).
Proof.
  intros H. eexists. split; [now apply set_metadata_online_fresh|]. split.
  - rewrite get_metadata_online. unfold stored_metadata; simpl.
    rewrite filter_app, (filter_none _ _ (select_metadata_absent _ _ _ H)).
    simpl. now rewrite !String.eqb_refl.
  - intros s' n' K. rewrite !get_metadata_online. simpl.
    unfold stored_metadata; simpl. rewrite filter_app. simpl.
    destruct ((service =? s')%string && (name =? n')%string) eqn:E.
    + apply andb_true_iff in E as [E1 E2].
      apply String.eqb_eq in E1, E2. destruct K; congruence.
    + now rewrite app_nil_r.
Qed.

Lemma set_metadata_writes_one_key_witness :
  (forall r, In r (metadata sync_db) -> md_service r = "sync" -> md_name r <> "x") /\
  exists d1,
    set_metadata "sync" "x" "1" (online sync_db) = (Ok tt, online d1) /\
    get_metadata "sync" "x" (online d1) = (Ok (Some "1"), online d1) /\
    forall s' n', s' <> "sync" \/ n' <> "x" ->
      fst (get_metadata s' n' (online d1)) =
      fst (get_metadata s' n' (online sync_db)).
Proof.
  assert (H : forall r, In r (metadata sync_db) ->
                        md_service r = "sync" -> md_name r <> "x").
  { intros r [<-|[]] _. discriminate. }
  split; [exact H|].
  exact (set_metadata_writes_one_key "sync" "x" "1" sync_db H).
Defined.

Lemma stored_metadata_UPDATE (service name value s' n' : string) (d : db) :
  stored_metadata s' n' (snd (_UPDATE_METADATA service name value d)) =
  if (s' =? service)%string && (n' =? name)%string
  then match stored_metadata s' n' d with Some _ => Some value | None => None end
  else stored_metadata s' n' d.
Proof.
  unfold stored_metadata; simpl.
  destruct ((s' =? service)%string && (n' =? name)%string) eqn:K.
  - apply andb_true_iff in K as [K1 K2]. apply String.eqb_eq in K1, K2. subst.
    rewrite filter_map_commute
      by (intros x; destruct (where_metadata service name x); reflexivity).
    destruct (filter _ (metadata d)) as [|r l] eqn:F; [reflexivity|]. simpl.
    assert (I : In r (filter (fun r => (md_service r =? service)%string &&
                                       (md_name r =? name)%string) (metadata d)))
      by (rewrite F; now left).
    apply filter_In in I as [_ I].
    now rewrite where_metadata_key, I.
  - rewrite filter_map_fixed; [reflexivity| |].
    + intros x. destruct (where_metadata service name x); reflexivity.
    + intros x W. apply key_true in W as [<- <-].
      now rewrite where_metadata_key, K.
Qed.

(** X15.  [update_metadata] changes its key, when it is there, and no
    other.  With the engine reachable, after
    [update_metadata(service, name, value)], [get_metadata(service, name)]
    returns [value] if it returned a value before and [None] if it returned
    [None], and [get_metadata] of every other key returns what it returned
    before. *)
Theorem update_metadata_writes_one_key (service name value : string) (d : db) :
  exists d1,
    update_metadata service name value (online d) = (Ok tt, online d1) /\
    (forall old,
        get_metadata service name (online d) = (Ok old, online d) ->
        get_metadata service name (online d1) =
          (Ok (match old with Some _ => Some value | None => None end),
           online d1)) /\
    forall s' n', s' <> service \/ n' <> name ->
      fst (get_metadata s' n' (online d1)) = fst (get_metadata s' n' (online d)).
Proof.
  exists (snd (_UPDATE_METADATA service name value d)).
  split; [apply update_metadata_online|]. split.
  - intros old G. rewrite get_metadata_online in G. injection G as <-.
    rewrite get_metadata_online, stored_metadata_UPDATE.
    now rewrite !String.eqb_refl.
  - intros s' n' K. rewrite !get_metadata_online. cbn [fst].
    rewrite stored_metadata_UPDATE.
    destruct (String.eqb_spec s' service) as [E1|E1]; [|reflexivity].
    destruct (String.eqb_spec n' name) as [E2|E2]; [|reflexivity].
    destruct K; congruence.
Qed.

(** X16.  [set_tos] does not create the terms-of-service key.  With the
    engine reachable, after [set_tos(service, url)],
    [get_metadata(service, 'terms-of-service')] returns [url] when the
    service had a value for the key, and still [None] when it had none. *)
Theorem set_tos_then_get_metadata (service url : string) (d : db) (old : option string) :
  get_metadata service "terms-of-service" (online d) = (Ok old, online d) ->
  exists d1,
    (set_tos service url ;;; get_metadata service "terms-of-service") (online d) =
      (Ok (match old with Some _ => Some url | None => None end), online d1).
Proof.
  intros G. rewrite get_metadata_online in G. injection G as <-.
  eexists. unfold bind at 1.
  change (set_tos service url (online d)) with
    (Ok tt, online (snd (update_tos_flag service 0 None
                           (snd (_UPDATE_METADATA service "terms-of-service" url d))))).
  cbv beta iota. rewrite get_metadata_online.
  change (stored_metadata service "terms-of-service"
            (snd (update_tos_flag service 0 None
                    (snd (_UPDATE_METADATA service "terms-of-service" url d)))))
    with (stored_metadata service "terms-of-service"
            (snd (_UPDATE_METADATA service "terms-of-service" url d))).
  rewrite stored_metadata_UPDATE. now rewrite !String.eqb_refl.
Qed.

Lemma set_tos_then_get_metadata_witness :
  let d := mk_db [] sync_nodes [] 1 in
  get_metadata "sync" "terms-of-service" (online d) = (Ok None, online d) /\
  exists d1,
    (set_tos "sync" "http://tos/2" ;;; get_metadata "sync" "terms-of-service")
      (online d) =
      (Ok (match @None string with Some _ => Some "http://tos/2" | None => None end),
       online d1).
Proof.
  intros d. split; [reflexivity|].
  exact (set_tos_then_get_metadata "sync" "http://tos/2" d None eq_refl).
Defined.

Lemma hd_error_filter_and {A} (a b : A -> bool) (l : list A) :
  hd_error (filter (fun r => a r && b r) l) = find b (filter a l).
Proof.
  induction l as [|x l IH]; simpl; [reflexivity|].
  destruct (a x); simpl; [|exact IH]. destruct (b x); [reflexivity|exact IH].
Qed.

(** X17.  The list and the single read agree.  With the engine reachable,
    [get_metadata(service)] without a name returns the rows of the service,
    all of them and no other, in storage order; and [get_metadata(service,
    name)] returns the value of the first row of that list with this name,
    or [None] when the list has none. *)
Theorem get_metadata_all_and_one (service : string) (d : db) :
  exists l,
    get_metadata_all service (online d) = (Ok l, online d) /\
    (forall r, In r l <-> In r (metadata d) /\ md_service r = service) /\
    forall name,
      get_metadata service name (online d) =
        (Ok (option_map md_value (find (fun r => (md_name r =? name)%string) l)),
         online d).
Proof.
  eexists. split; [reflexivity|]. split.
  - intros r. simpl. rewrite filter_In, andb_true_r.
    now rewrite String.eqb_eq.
  - intros name. rewrite get_metadata_online. unfold stored_metadata; simpl.
    rewrite hd_error_filter_and. do 4 f_equal.
    apply filter_ext. intros x. now rewrite andb_true_r.
Qed.

(** ** Doing it again *)

Lemma map_twice {A} (g : A -> A) (l : list A) :
  (forall x, g (g x) = g x) -> map g (map g l) = map g l.
Proof. intros H. rewrite map_map. apply map_ext. auto. Qed.

(** X18.  The updates can be repeated.  With the engine reachable, each
    of [update_metadata], [set_tos] and, for a [value] that is an integer
    the engine stores, [set_tos_flag] returns normally, and returns normally
    again when it is called a second time with the same arguments, leaving
    the database as the first call left it. *)
Theorem updates_are_idempotent (d : db) (value : Z) :
  sql_integer value = true ->
  (forall s n v, exists d1,
      update_metadata s n v (online d) = (Ok tt, online d1) /\
      update_metadata s n v (online d1) = (Ok tt, online d1)) /\
  (forall s e, exists d1,
      set_tos_flag s value e (online d) = (Ok tt, online d1) /\
      set_tos_flag s value e (online d1) = (Ok tt, online d1)) /\
  (forall s v, exists d1,
      set_tos s v (online d) = (Ok tt, online d1) /\
      set_tos s v (online d1) = (Ok tt, online d1)).
Proof.
  intros V.
  assert (M : forall s n v (l : list metadata_row),
             let g := fun r => if where_metadata s n r
                               then mk_metadata (md_service r) (md_name r) v
                               else r in
             map g (map g l) = map g l).
  { intros s n v l g. apply map_twice. intros x. unfold g.
    destruct (where_metadata s n x) eqn:E; [|now rewrite E].
    unfold where_metadata in *; simpl. now rewrite E. }
  assert (F : forall s v e (l : list user_node),
             let g := fun r => if where_tos_flag s e r
                               then mk_user_node (un_uid r) (un_service r)
                                                 (un_email r) (un_node r) v
                               else r in
             map g (map g l) = map g l).
  { intros s v e l g. apply map_twice. intros x. unfold g.
    destruct (where_tos_flag s e x) eqn:E; [|now rewrite E].
    unfold where_tos_flag in *; simpl. now rewrite E. }
  assert (T : forall s v x,
             set_tos s v (online x) =
             (Ok tt, online (snd (update_tos_flag s 0 None
                               (snd (_UPDATE_METADATA s "terms-of-service" v x))))))
    by reflexivity.
  repeat apply conj.
  - intros s n v. eexists. split; [apply update_metadata_online|].
    rewrite update_metadata_online.
    unfold _UPDATE_METADATA, set_metadata_rows; simpl. now rewrite M.
  - intros s e. eexists. split; [now apply set_tos_flag_online|].
    rewrite (set_tos_flag_online _ _ _ _ V).
    unfold set_user_nodes; simpl. now rewrite F.
  - intros s v. eexists. split; [apply T|]. rewrite T.
    unfold update_tos_flag, _UPDATE_METADATA, set_user_nodes, set_metadata_rows;
      simpl.
    now rewrite M, F.
Qed.

Lemma updates_are_idempotent_witness :
  sql_integer 1 = true /\
  set_tos_flag "sync" 1 None (online signed_db) =
    (Ok tt, online (mk_db [mk_user_node 1 "sync" "u@x" "https://a.example" 1]
                          (nodes signed_db) (metadata signed_db) 2)) /\
  (forall s n v, exists d1,
      update_metadata s n v (online signed_db) = (Ok tt, online d1) /\
      update_metadata s n v (online d1) = (Ok tt, online d1)) /\
  (forall s e, exists d1,
      set_tos_flag s 1 e (online signed_db) = (Ok tt, online d1) /\
      set_tos_flag s 1 e (online d1) = (Ok tt, online d1)) /\
  (forall s v, exists d1,
      set_tos s v (online signed_db) = (Ok tt, online d1) /\
      set_tos s v (online d1) = (Ok tt, online d1)).
Proof.
  split; [reflexivity|]. split; [reflexivity|].
  exact (updates_are_idempotent signed_db 1 eq_refl).
Defined.

(** X19.  [set_tos] is two writes, and the first one stays when the
    second fails.  When the engine answers the update of the metadata and
    fails on the update of the flags, [set_tos] raises the [BackendError] of
    that failure and leaves the database as [update_metadata] alone leaves
    it: the url is changed where the key exists, and no flag is. *)
Theorem set_tos_failed_flag_update (service url : string) (d : db) (f : fault) :
  exists d1,
    update_metadata service "terms-of-service" url (online d) = (Ok tt, online d1) /\
    set_tos service url (mk_world d [None; Some f]) =
      (Raise (BackendError (str (exn_of_fault f))), online d1) /\
    user_nodes d1 = user_nodes d.
Proof.
  exists (snd (_UPDATE_METADATA service "terms-of-service" url d)).
  split; [apply update_metadata_online|]. split; [|reflexivity].
  unfold set_tos, update_metadata, set_tos_flag, bind, _safe_execute,
    engine_execute; simpl.
  now destruct f.
Qed.
